(** * doc-path-rag: the Markdown ingestion pipeline and the retrieval formatter

    A shallow embedding of [ingest.py] (corpus walker, metadata enricher,
    batch ingestion) and of [bot.py] ([format_context_with_metadata], and
    the cleaning of the answer in [main]), followed by the properties of
    the specification that were checked against it and by further
    properties of the code.

    Conventions.
    - A Python [str] is a list of Unicode code points ([N]).
    - A Python [int] is a [Z].
    - A Python [float] is an IEEE 754 binary64 value, [spec_float] with
      precision 53 and maximal exponent 1024.
    - The collaborators that are not part of the repository (the file
      system, the langchain splitter, [uuid4], the vector store) enter as
      arguments of the functions that call them. *)

From Stdlib Require Import List Bool Arith NArith ZArith Lia Sorted.
From Stdlib Require Import String Ascii DecimalString.
From Stdlib Require Import SpecFloat.
Import ListNotations.

Set Implicit Arguments.

(* ================================================================== *)
(** * Python strings *)
(* ================================================================== *)

Module PyStr.

Definition char := N.
Definition pystr := list char.

(** A string literal of the source, as code points. *)
Definition lit (s : string) : pystr := map N_of_ascii (list_ascii_of_string s).

Definition char_eq_dec : forall a b : char, {a = b} + {a <> b} := N.eq_dec.
Definition str_eq_dec : forall a b : pystr, {a = b} + {a <> b} :=
  list_eq_dec N.eq_dec.

Fixpoint str_eqb (a b : pystr) : bool :=
  match a, b with
  | [], [] => true
  | x :: a', y :: b' => N.eqb x y && str_eqb a' b'
  | _, _ => false
  end.

(** [s.startswith(prefix)] *)
Fixpoint startswith (s prefix : pystr) : bool :=
  match prefix, s with
  | [], _ => true
  | p :: prefix', c :: s' => N.eqb c p && startswith s' prefix'
  | _ :: _, [] => false
  end.

(** [s.startswith((p1, p2, ...))] *)
Definition startswith_any (s : pystr) (prefixes : list pystr) : bool :=
  existsb (startswith s) prefixes.

(** [s.endswith(suffix)] *)
Definition endswith (s suffix : pystr) : bool :=
  startswith (rev s) (rev suffix).

Definition endswith_any (s : pystr) (suffixes : list pystr) : bool :=
  existsb (endswith s) suffixes.

(** [s.count(sub)]: the number of non-overlapping occurrences of [sub],
    scanning from the left; [skip] is the number of characters still
    covered by the occurrence found last. *)
Fixpoint count_from (sub s : pystr) (skip : nat) : nat :=
  match s with
  | [] => 0
  | _ :: s' =>
      match skip with
      | S k => count_from sub s' k
      | O =>
          if startswith s sub
          then S (count_from sub s' (List.length sub - 1))
          else count_from sub s' 0
      end
  end.

Definition count (s sub : pystr) : Z :=
  match sub with
  | [] => Z.of_nat (S (List.length s))
  | _ :: _ => Z.of_nat (count_from sub s 0)
  end.

(** [sub in s] *)
Fixpoint contains (s sub : pystr) : bool :=
  startswith s sub ||
  match s with
  | [] => false
  | _ :: s' => contains s' sub
  end.

(** [s.split(sep)] for a one-character separator: the fields between the
    separators, empty fields included. *)
Fixpoint split_when (is_sep : char -> bool) (s : pystr) : list pystr :=
  match s with
  | [] => [[]]
  | c :: s' =>
      if is_sep c then [] :: split_when is_sep s'
      else
        match split_when is_sep s' with
        | w :: ws => (c :: w) :: ws
        | [] => [[c]]
        end
  end.

Definition split_on (sep : char) (s : pystr) : list pystr :=
  split_when (N.eqb sep) s.

(** [str.isspace] on one code point (Unicode white space, as CPython's
    [_PyUnicode_IsWhitespace]). *)
Definition isspace (c : char) : bool :=
  ((9 <=? c) && (c <=? 13) || (28 <=? c) && (c <=? 32)
   || (c =? 133) || (c =? 160) || (c =? 5760)
   || (8192 <=? c) && (c <=? 8202)
   || (c =? 8232) || (c =? 8233) || (c =? 8239) || (c =? 8287)
   || (c =? 12288))%N.

Definition nonempty (s : pystr) : bool :=
  match s with [] => false | _ :: _ => true end.

(** [s.split()]: the maximal runs of characters that are not white space. *)
Definition split (s : pystr) : list pystr :=
  filter nonempty (split_when isspace s).

Fixpoint lstrip_when (p : char -> bool) (s : pystr) : pystr :=
  match s with
  | [] => []
  | c :: s' => if p c then lstrip_when p s' else s
  end.

Definition strip_when (p : char -> bool) (s : pystr) : pystr :=
  rev (lstrip_when p (rev (lstrip_when p s))).

(** [s.strip()] *)
Definition strip (s : pystr) : pystr := strip_when isspace s.

Definition mem (c : char) (chars : pystr) : bool := existsb (N.eqb c) chars.

(** [s.strip(chars)] *)
Definition strip_chars (chars s : pystr) : pystr :=
  strip_when (fun c => mem c chars) s.

(** [sep.join(parts)] *)
Fixpoint join (sep : pystr) (parts : list pystr) : pystr :=
  match parts with
  | [] => []
  | [p] => p
  | p :: rest => p ++ sep ++ join sep rest
  end.

(** [s.split(sep)] for a separator of any length: the fields between the
    occurrences of [sep], found from the left and not overlapping; [skip]
    is the number of characters still covered by the occurrence found
    last. *)
Fixpoint split_from (sep s : pystr) (skip : nat) : list pystr :=
  match s with
  | [] => [[]]
  | c :: s' =>
      match skip with
      | S k => split_from sep s' k
      | O =>
          if startswith s sep
          then [] :: split_from sep s' (List.length sep - 1)
          else
            match split_from sep s' 0 with
            | w :: ws => (c :: w) :: ws
            | [] => [[c]]
            end
      end
  end.

Definition split_str (s sep : pystr) : list pystr := split_from sep s 0.

(** [str(n)] for a non-negative [int]. *)
Definition str_of_nat (n : nat) : pystr :=
  lit (NilZero.string_of_uint (Nat.to_uint n)).

(** The Unicode character database beyond ASCII.  The character classes
    and the case mapping are fixed on code points below 128; above, they
    are the tables of the interpreter. *)
Class Unicode := {
  uni_isalpha : char -> bool;
  uni_isupper : char -> bool;
  uni_lower : pystr -> pystr
}.

Definition is_ascii (c : char) : bool := (c <? 128)%N.

Section WithUnicode.
Context {U : Unicode}.

Definition isalpha_char (c : char) : bool :=
  if is_ascii c
  then ((65 <=? c) && (c <=? 90) || (97 <=? c) && (c <=? 122))%N
  else uni_isalpha c.

(** [s.isalpha()]: at least one character, all of them alphabetic. *)
Definition isalpha (s : pystr) : bool :=
  nonempty s && forallb isalpha_char s.

(** [c.isupper()] for a one-character string. *)
Definition isupper_char (c : char) : bool :=
  if is_ascii c then ((65 <=? c) && (c <=? 90))%N else uni_isupper c.

Definition lower_ascii (c : char) : char :=
  if ((65 <=? c) && (c <=? 90))%N then (c + 32)%N else c.

(** [s.lower()] *)
Definition lower (s : pystr) : pystr :=
  if forallb is_ascii s then map lower_ascii s else uni_lower s.

End WithUnicode.

(** A database with no letter and no case beyond ASCII, for running the
    functions on ASCII text. *)
Definition ascii_only : Unicode :=
  {| uni_isalpha := fun _ => false;
     uni_isupper := fun _ => false;
     uni_lower := fun s => s |}.

End PyStr.

(* ================================================================== *)
(** * Python floats *)
(* ================================================================== *)

Module PyFloat.

Definition prec : Z := 53.
Definition emax : Z := 1024.

Definition float := spec_float.

Definition fadd : float -> float -> float := SFadd prec emax.
Definition fmul : float -> float -> float := SFmul prec emax.
Definition fdiv : float -> float -> float := SFdiv prec emax.
Definition flt : float -> float -> bool := SFltb.
Definition fle : float -> float -> bool := SFleb.

(** [float(n)], the conversion applied to the [int] operand of a mixed
    product: the nearest binary64 value, ties to even.  (Where CPython
    raises [OverflowError], from 2^1024 on, this gives an infinity; no
    count of characters of a string comes near.) *)
Definition of_int (n : Z) : float := binary_normalize prec emax n 0 false.

(** An [int] as an unrounded floating-point number. *)
Definition exact_int (n : Z) : float :=
  match n with
  | Z0 => S754_zero false
  | Zpos p => S754_finite false p 0
  | Zneg p => S754_finite true p 0
  end.

(** [a / b] on [int]s with [b] not zero: the quotient, rounded once. *)
Definition int_true_div (a b : Z) : float := fdiv (exact_int a) (exact_int b).

(** The decimal literals of the source. *)
Definition f0_2 : float := Eval vm_compute in int_true_div 2 10.
Definition f0_3 : float := Eval vm_compute in int_true_div 3 10.
Definition f0_5 : float := Eval vm_compute in int_true_div 5 10.
Definition f10 : float := Eval vm_compute in of_int 10.
Definition fzero : float := S754_zero false.

(** [min(a, b)] on two arguments: the second replaces the first only when
    it compares strictly smaller. *)
Definition py_min (a b : float) : float := if flt b a then b else a.

(** The integer nearest to [num / den] for [den > 0], ties to even. *)
Definition round_half_even (num den : Z) : Z :=
  let q := (num / den)%Z in
  let r := (num mod den)%Z in
  match (2 * r ?= den)%Z with
  | Lt => q
  | Gt => (q + 1)%Z
  | Eq => if Z.even q then q else (q + 1)%Z
  end.

(** [round(x, 2)]: the exact value of [x] is rounded to the nearest
    multiple of 1/100 (ties to even), and that decimal is converted back
    to the nearest float.  Zeros, infinities and NaN round to themselves,
    and so does a float with no fractional bits. *)
Definition round2 (x : float) : float :=
  match x with
  | S754_finite s m (Zneg k) =>
      match round_half_even (100 * Zpos m) (2 ^ Zpos k) with
      | Zpos p => fdiv (S754_finite s p 0) (S754_finite false 100 0)
      | _ => S754_zero s
      end
  | _ => x
  end.

(** [0 <= x <= 10] as Python evaluates it. *)
Definition in_0_10 (x : float) : bool := fle fzero x && fle x f10.

(** A float that is a zero, a positive number or the positive infinity,
    with the sign bit clear and a mantissa that fits the precision. *)
Definition nonneg (x : float) : Prop :=
  match x with
  | S754_zero s | S754_infinity s => s = false
  | S754_nan => False
  | S754_finite s m _ => s = false /\ (Zpos m < 2 ^ prec)%Z
  end.

End PyFloat.

(* ================================================================== *)
(** * POSIX paths ([os.path]) and the directory walk *)
(* ================================================================== *)

Module OsPath.
Import PyStr.

Definition slash : char := 47%N.

(** [os.path.join(a, b)] *)
Definition join (a b : pystr) : pystr :=
  if startswith b [slash] then b
  else if negb (nonempty a) || endswith a [slash] then a ++ b
  else a ++ [slash] ++ b.

(** [s] cut before its first slash. *)
Fixpoint break_at_slash (s : pystr) : pystr * pystr :=
  match s with
  | [] => ([], [])
  | c :: s' =>
      if N.eqb c slash then ([], s)
      else let (a, b) := break_at_slash s' in (c :: a, b)
  end.

(** [(p[:i], p[i:])] for [i = p.rfind('/') + 1]. *)
Definition split_last_slash (p : pystr) : pystr * pystr :=
  let (tail, head) := break_at_slash (rev p) in (rev head, rev tail).

(** [os.path.basename(p)] *)
Definition basename (p : pystr) : pystr := snd (split_last_slash p).

(** [os.path.dirname(p)] *)
Definition dirname (p : pystr) : pystr :=
  let head := fst (split_last_slash p) in
  if nonempty head && negb (forallb (N.eqb slash) head)
  then rev (lstrip_when (N.eqb slash) (rev head))
  else head.

(** One step of [os.walk]: a directory, its sub-directories, its files. *)
Definition walk_entry : Type := pystr * list pystr * list pystr.

(** The tree under the data folder, as [os.walk] yields it. *)
Definition tree := list walk_entry.

End OsPath.

(* ================================================================== *)
(** * [ingest.py] *)
(* ================================================================== *)

Module Ingest.
Import PyStr PyFloat OsPath.

Definition data_folder : pystr := lit "./data".

Definition nl : char := 10%N.
Definition dot : char := 46%N.
Definition comma : char := 44%N.

(** ** The corpus walker *)

Section Walker.
Context {U : Unicode}.

(** The test of line 37 on one file name. *)
Definition is_unprocessed_markdown (file : pystr) : bool :=
  endswith_any (lower file) [lit ".md"; lit ".markdown"]
  && negb (startswith file (lit "_")).

(** [find_all_markdown_files(root_folder)], on what [os.walk(root_folder)]
    yields. *)
Definition find_all_markdown_files (walk : tree) : list pystr :=
  fold_left
    (fun markdown_files (entry : walk_entry) =>
       let '(root, _, files) := entry in
       fold_left
         (fun markdown_files file =>
            if is_unprocessed_markdown file
            then markdown_files ++ [join root file]
            else markdown_files)
         files markdown_files)
    walk [].

End Walker.

(** [os.path.exists(p)] in the tree. *)
Definition path_exists (t : tree) (p : pystr) : bool :=
  existsb
    (fun entry : walk_entry =>
       let '(root, _, files) := entry in
       str_eqb root p || existsb (fun f => str_eqb (join root f) p) files)
    t.

Definition is_file (t : tree) (p : pystr) : bool :=
  existsb
    (fun entry : walk_entry =>
       let '(root, _, files) := entry in
       existsb (fun f => str_eqb (join root f) p) files)
    t.

(** [os.rename(old, new)] for a file that stays in its directory, which is
    the only use the source makes of it; [None] is [OSError]. *)
Definition rename_entry (old new : pystr) (entry : walk_entry) : walk_entry :=
  let '(root, dirs, files) := entry in
  (root, dirs,
   map (fun f => if str_eqb (join root f) old then basename new else f) files).

Definition os_rename (old new : pystr) (t : tree) : option tree :=
  if is_file t old then Some (map (rename_entry old new) t) else None.

(** Lines 281-284: the name a processed file is given. *)
Definition processed_path (file_path : pystr) : pystr :=
  let directory := dirname file_path in
  let filename := basename file_path in
  let new_filename := lit "_" ++ filename in
  join directory new_filename.

(** ** The metadata enricher *)

(** A chunk as the splitter returns it: the text, and the titles of the
    active headers.  The splitter is configured with the keys
    ['Header 1'] to ['Header 6'], so the pair [(k, title)] stands for the
    entry ['Header k': title] and [int(key.split(' ')[1])] is [k]. *)
Record Document := {
  page_content : pystr;
  header_metadata : list (nat * pystr)
}.

(** The keys that [chunk.metadata.update] adds.  Left out: the values that
    are copied from the environment or printed from a dict
    ([relative_path], [folder_path], [section_hierarchy],
    [processing_timestamp], [file_size_bytes]). *)
Record Metadata := {
  chunk_id : pystr;
  chunk_index : Z;
  source_file : pystr;
  file_path : pystr;
  chunk_length : Z;
  word_count : Z;
  line_count : Z;
  non_empty_lines : Z;
  sentence_count : Z;
  avg_words_per_sentence : float;
  header_path : pystr;
  header_depth : Z;
  max_header_level : Z;
  min_header_level : Z;
  content_types : pystr;
  has_code : bool;
  has_links : bool;
  has_images : bool;
  has_tables : bool;
  has_lists : bool;
  code_blocks_count : Z;
  inline_code_count : Z;
  links_count : Z;
  images_count : Z;
  table_rows_estimate : Z;
  list_items_count : Z;
  is_first_chunk : bool;
  is_last_chunk : bool;
  prev_chunk_id : pystr;
  next_chunk_id : pystr;
  content_density : float;
  complexity_score : float;
  keywords_estimate : Z;
  potential_entities : pystr
}.

(** An enriched chunk: the splitter's document with the added keys. *)
Record Chunk := {
  document : Document;
  metadata : Metadata
}.

Definition len {A : Type} (l : list A) : Z := Z.of_nat (List.length l).

(** [a and b] on two [int]s. *)
Definition py_and (a b : Z) : Z := if (a =? 0)%Z then a else b.

(** Lines 103-113: the local variables of the loop body. *)
Definition lines (content : pystr) : list pystr := split_on nl content.

Definition non_empty_lines_of (content : pystr) : list pystr :=
  map strip (filter (fun line => nonempty (strip line)) (lines content)).

Definition code_blocks (content : pystr) : Z := count content (lit "```").

Definition inline_code (content : pystr) : Z :=
  (count content (lit "`") - code_blocks content * 2)%Z.

Definition links (content : pystr) : Z :=
  py_and (count content (lit "[")) (count content (lit "](")).

Definition images (content : pystr) : Z := count content (lit "![").

Definition tables (content : pystr) : Z := count content (lit "|").

(** [f'{j}.' for j in range(1, 100)] *)
Definition ordinal_prefixes : list pystr :=
  map (fun j => str_of_nat j ++ [dot]) (seq 1 99).

Definition is_list_line (line : pystr) : bool :=
  startswith_any (strip line) [lit "- "; lit "* "; lit "+ "]
  || existsb (startswith (strip line)) ordinal_prefixes.

Definition lists (content : pystr) : Z :=
  len (filter is_list_line (lines content)).

(** Lines 116-128. *)
Definition content_types_of (content : pystr) : list pystr :=
  let content_types :=
    (if (code_blocks content >? 0)%Z then [lit "code"] else [])
    ++ (if (links content >? 0)%Z then [lit "links"] else [])
    ++ (if (images content >? 0)%Z then [lit "images"] else [])
    ++ (if (tables content >? 0)%Z then [lit "tables"] else [])
    ++ (if (lists content >? 0)%Z then [lit "lists"] else []) in
  match content_types with
  | [] => [lit "text"]
  | _ :: _ => content_types
  end.

(** Lines 131-145: the header hierarchy. *)
Fixpoint dict_set (d : list (nat * pystr)) (k : nat) (v : pystr)
  : list (nat * pystr) :=
  match d with
  | [] => [(k, v)]
  | (k', v') :: d' =>
      if (k' =? k)%nat then (k, v) :: d' else (k', v') :: dict_set d' k v
  end.

Definition header_levels (chunk : Document) : list (nat * pystr) :=
  fold_left (fun d kv => dict_set d (fst kv) (snd kv)) (header_metadata chunk) [].

Fixpoint insert_sorted (k : nat) (l : list nat) : list nat :=
  match l with
  | [] => [k]
  | k' :: l' => if (k <=? k')%nat then k :: l else k' :: insert_sorted k l'
  end.

Definition sorted (l : list nat) : list nat := fold_right insert_sorted [] l.

Fixpoint dict_get (d : list (nat * pystr)) (k : nat) : pystr :=
  match d with
  | [] => []
  | (k', v) :: d' => if (k' =? k)%nat then v else dict_get d' k
  end.

Definition header_path_of (chunk : Document) : list pystr :=
  let levels := header_levels chunk in
  map (dict_get levels) (sorted (map fst levels)).

Definition max_header_level_of (chunk : Document) : Z :=
  match map fst (header_levels chunk) with
  | [] => 0
  | k :: ks => Z.of_nat (fold_left Nat.max ks k)
  end.

Definition min_header_level_of (chunk : Document) : Z :=
  match map fst (header_levels chunk) with
  | [] => 0
  | k :: ks => Z.of_nat (fold_left Nat.min ks k)
  end.

(** Lines 148-149. *)
Definition sentences (content : pystr) : Z :=
  len (filter (fun s => nonempty (strip s)) (split_on dot content)).

(** Lines 200-201. *)
Definition complexity (max_header_level n_content_types code_blocks tables : Z)
  : float :=
  round2
    (py_min
       (fadd
          (fadd
             (fadd (fmul (of_int max_header_level) f0_3)
                   (fmul (of_int n_content_types) f0_2))
             (fmul (of_int code_blocks) f0_5))
          (fmul (of_int tables) f0_3))
       f10).

Definition punctuation : pystr := lit ".,!?;:" ++ [34%N] ++ lit "()[]{}".

Section Enricher.
Context {U : Unicode}.

(** Lines 204-206. *)
Definition keywords (content : pystr) : list pystr :=
  map (fun word => strip_chars punctuation (lower word))
      (filter (fun word => (len word >? 3)%Z && isalpha word) (split content)).

Definition keywords_estimate_of (content : pystr) : Z :=
  len (nodup str_eq_dec (keywords content)).

(** The count as the specification words it: each token is stripped of
    the punctuation first, the stripped tokens that are alphabetic and
    longer than 3 characters are kept, lowercased, and the distinct ones
    counted. *)
Definition keywords_as_specified (content : pystr) : list pystr :=
  map lower
      (filter (fun word => (len word >? 3)%Z && isalpha word)
              (map (strip_chars punctuation) (split content))).

Definition keywords_estimate_as_specified (content : pystr) : Z :=
  len (nodup str_eq_dec (keywords_as_specified content)).

(** Lines 207-208. *)
Definition is_entity (word : pystr) : bool :=
  match word with
  | [] => false
  | c :: _ => isupper_char c && (len word >? 2)%Z && isalpha word
  end.

Definition potential_entities_of (content : pystr) : pystr :=
  PyStr.join (lit ",") (firstn 10 (filter is_entity (split content))).

(** The dict that [chunk.metadata.update] merges into the [i]-th document
    of [n_splits] (lines 152-213), given the identifier drawn for it and
    the value of the [prev_chunk_id] expression. *)
Definition enrich_with (path : pystr) (n_splits : Z) (i : nat)
    (chunk : Document) (id prev_id : pystr) : Chunk :=
  let content := page_content chunk in
  let content_types := content_types_of content in
  let header_path := header_path_of chunk in
  let max_level := max_header_level_of chunk in
  let n_sentences := sentences content in
  {| document := chunk;
     metadata := {|
       chunk_id := id;
       chunk_index := Z.of_nat i;
       source_file := basename path;
       file_path := path;
       chunk_length := len content;
       word_count := len (split content);
       line_count := len (lines content);
       non_empty_lines := len (non_empty_lines_of content);
       sentence_count := n_sentences;
       avg_words_per_sentence :=
         round2 (int_true_div (len (split content)) (Z.max n_sentences 1));
       header_path := PyStr.join (lit " > ") header_path;
       header_depth := len header_path;
       max_header_level := max_level;
       min_header_level := min_header_level_of chunk;
       content_types := PyStr.join (lit ",") content_types;
       has_code := (code_blocks content >? 0)%Z;
       has_links := (links content >? 0)%Z;
       has_images := (images content >? 0)%Z;
       has_tables := (tables content >? 0)%Z;
       has_lists := (lists content >? 0)%Z;
       code_blocks_count := (code_blocks content / 2)%Z;
       inline_code_count := (inline_code content / 2)%Z;
       links_count := links content;
       images_count := images content;
       table_rows_estimate := tables content;
       list_items_count := lists content;
       is_first_chunk := (i =? 0)%nat;
       is_last_chunk := (Z.of_nat i =? n_splits - 1)%Z;
       prev_chunk_id := prev_id;
       next_chunk_id := [];
       content_density :=
         round2 (int_true_div (len (split content))
                              (Z.max (len (lines content)) 1));
       complexity_score :=
         complexity max_level (len content_types)
                    (code_blocks content) (tables content);
       keywords_estimate := keywords_estimate_of content;
       potential_entities := potential_entities_of content
     |} |}.

(** The body of the loop of lines 97-215; [chunks] holds the chunks built
    so far, and [None] is the [IndexError] of [chunks[i-1]]. *)
Definition enrich (path : pystr) (n_splits : Z) (chunks : list Chunk)
    (i : nat) (chunk : Document) (id : pystr) : option Chunk :=
  let prev :=
    if (0 <? i)%nat
    then option_map (fun c => chunk_id (metadata c)) (nth_error chunks (i - 1))
    else Some [] in
  option_map (enrich_with path n_splits i chunk id) prev.

(** The loop of lines 96-215; [uuid4 i] is the identifier drawn for the
    [i]-th chunk. *)
Fixpoint enrich_loop (path : pystr) (uuid4 : nat -> pystr) (n_splits : Z)
    (md_header_splits : list Document) (i : nat) (chunks : list Chunk)
  : option (list Chunk) :=
  match md_header_splits with
  | [] => Some chunks
  | chunk :: rest =>
      match enrich path n_splits chunks i chunk (uuid4 i) with
      | None => None
      | Some c => enrich_loop path uuid4 n_splits rest (S i) (chunks ++ [c])
      end
  end.

End Enricher.

(** [chunks[i].metadata['next_chunk_id'] = id] *)
Definition set_next_chunk_id (c : Chunk) (id : pystr) : Chunk :=
  let m := metadata c in
  {| document := document c;
     metadata := {|
       chunk_id := chunk_id m;
       chunk_index := chunk_index m;
       source_file := source_file m;
       file_path := file_path m;
       chunk_length := chunk_length m;
       word_count := word_count m;
       line_count := line_count m;
       non_empty_lines := non_empty_lines m;
       sentence_count := sentence_count m;
       avg_words_per_sentence := avg_words_per_sentence m;
       header_path := header_path m;
       header_depth := header_depth m;
       max_header_level := max_header_level m;
       min_header_level := min_header_level m;
       content_types := content_types m;
       has_code := has_code m;
       has_links := has_links m;
       has_images := has_images m;
       has_tables := has_tables m;
       has_lists := has_lists m;
       code_blocks_count := code_blocks_count m;
       inline_code_count := inline_code_count m;
       links_count := links_count m;
       images_count := images_count m;
       table_rows_estimate := table_rows_estimate m;
       list_items_count := list_items_count m;
       is_first_chunk := is_first_chunk m;
       is_last_chunk := is_last_chunk m;
       prev_chunk_id := prev_chunk_id m;
       next_chunk_id := id;
       content_density := content_density m;
       complexity_score := complexity_score m;
       keywords_estimate := keywords_estimate m;
       potential_entities := potential_entities m
     |} |}.

Fixpoint update {A : Type} (l : list A) (i : nat) (x : A) : list A :=
  match l, i with
  | [], _ => []
  | _ :: l', O => x :: l'
  | y :: l', S j => y :: update l' j x
  end.

(** One turn of the loop of lines 218-220; [None] is an [IndexError]. *)
Definition link_step (chunks : option (list Chunk)) (i : nat)
  : option (list Chunk) :=
  match chunks with
  | None => None
  | Some chunks =>
      if (Z.of_nat i <? len chunks - 1)%Z then
        match nth_error chunks i, nth_error chunks (i + 1) with
        | Some c, Some c' =>
            Some (update chunks i (set_next_chunk_id c (chunk_id (metadata c'))))
        | _, _ => None
        end
      else Some chunks
  end.

Definition link_next (chunks : list Chunk) : option (list Chunk) :=
  fold_left link_step (seq 0 (List.length chunks)) (Some chunks).

(** Lines 95-222: the chunks built from the documents of the splitter;
    [None] when an exception reaches the handler of line 224. *)
Definition build_chunks {U : Unicode} (path : pystr) (uuid4 : nat -> pystr)
    (md_header_splits : list Document) : option (list Chunk) :=
  match enrich_loop path uuid4 (len md_header_splits) md_header_splits 0 [] with
  | None => None
  | Some chunks => link_next chunks
  end.

(** The effect of lines 281-285 on the tree: the file is renamed, or the
    tree is left as it is when [os.rename] raises. *)
Definition mark_processed (t : tree) (path : pystr) : tree :=
  match os_rename path (processed_path path) t with
  | Some t' => t'
  | None => t
  end.

(** Every file of the tree whose path is [p] carries the processed
    marker. *)
Definition marked (p : pystr) (t : tree) : Prop :=
  forall root dirs files f,
    In (root, dirs, files) t -> In f files -> join root f = p ->
    startswith f (lit "_") = true.

(** ** Chunking one file, ingesting one file, ingesting the folder *)

(** What the functions print, one constructor per [print] of the source. *)
Inductive Msg :=
| MsgFileNotFound (path : pystr)
| MsgStartChunk (path : pystr)
| MsgErrorProcessing (path : pystr)
| MsgStartIngest (path : pystr)
| MsgNoChunks (path : pystr)
| MsgAdding (n : Z)
| MsgIngested (path : pystr) (n : Z)
| MsgErrorAdding
| MsgScanning
| MsgNoFiles
| MsgFound (n : Z)
| MsgFileListSaved
| MsgProcessing (i n : Z)
| MsgMarked (new_filename : pystr)
| MsgFailed (path : pystr)
| MsgComplete (successful failed total : Z).

Section Pipeline.
Context {U : Unicode}.

(** The collaborators: the text a [TextLoader] reads ([None] when it
    raises), langchain's [MarkdownHeaderTextSplitter.split_text], [uuid4]
    (the identifier drawn for the [i]-th chunk of a file), and the vector
    store with its [add_documents] ([None] when it raises). *)
Variable load : pystr -> option pystr.
Variable split_text : pystr -> list Document.
Variable uuid4 : pystr -> nat -> pystr.
Variable Store : Type.
Variable add_documents : Store -> list Chunk -> list pystr -> option Store.

(** The state the functions act on: the tree under the data folder, the
    vector store, and what has been printed. *)
Record World := {
  fs : tree;
  vector_store : Store;
  stdout : list Msg
}.

Definition print (w : World) (m : Msg) : World :=
  {| fs := fs w; vector_store := vector_store w; stdout := stdout w ++ [m] |}.

(** [chunk_markdown_file(file_path)]: the chunks, and the world after the
    prints. *)
Definition chunk_markdown_file (w : World) (path : pystr)
  : list Chunk * World :=
  if negb (path_exists (fs w) path) then ([], print w (MsgFileNotFound path))
  else
    let w := print w (MsgStartChunk path) in
    match load path with
    | None => ([], print w (MsgErrorProcessing path))
    | Some text =>
        match build_chunks path (uuid4 path) (split_text text) with
        | None => ([], print w (MsgErrorProcessing path))
        | Some chunks => (chunks, w)
        end
    end.

(** [ingest_markdown_file(file_path)].  Every exception is handled inside:
    the function returns normally whatever the store does. *)
Definition ingest_markdown_file (w : World) (path : pystr) : World :=
  let w := print w (MsgStartIngest path) in
  let (chunks, w) := chunk_markdown_file w path in
  match chunks with
  | [] => print w (MsgNoChunks path)
  | _ :: _ =>
      let documents := chunks in
      let uuids := map (fun chunk => chunk_id (metadata chunk)) chunks in
      let w := print w (MsgAdding (len documents)) in
      match add_documents (vector_store w) documents uuids with
      | Some store' =>
          print {| fs := fs w; vector_store := store'; stdout := stdout w |}
                (MsgIngested path (len chunks))
      | None => print w MsgErrorAdding
      end
  end.

(** The counters of the batch. *)
Record Batch := {
  world : World;
  successful_ingestions : Z;
  failed_ingestions : Z
}.

(** One turn of the loop of lines 274-290. *)
Definition process_file (n_files : Z) (b : Batch) (item : nat * pystr) : Batch :=
  let (i, path) := item in
  let w := print (world b) (MsgProcessing (Z.of_nat i) n_files) in
  let w := ingest_markdown_file w path in
  let successful := (successful_ingestions b + 1)%Z in
  match os_rename path (processed_path path) (fs w) with
  | Some fs' =>
      {| world :=
           print {| fs := fs'; vector_store := vector_store w; stdout := stdout w |}
                 (MsgMarked (lit "_" ++ basename path));
         successful_ingestions := successful;
         failed_ingestions := failed_ingestions b |}
  | None =>
      {| world := print w (MsgFailed path);
         successful_ingestions := successful;
         failed_ingestions := (failed_ingestions b + 1)%Z |}
  end.

(** [enumerate(l, 1)] *)
Definition enumerate1 {A : Type} (l : list A) : list (nat * A) :=
  combine (seq 1 (List.length l)) l.

(** [ingest_all_markdown_files()].  [save_file_list] writes a manifest
    outside the data folder; only its print is kept. *)
Definition ingest_all_markdown_files (w : World) : Batch :=
  let w := print w MsgScanning in
  let markdown_files := find_all_markdown_files (fs w) in
  match markdown_files with
  | [] =>
      {| world := print w MsgNoFiles;
         successful_ingestions := 0;
         failed_ingestions := 0 |}
  | _ :: _ =>
      let w := print w (MsgFound (len markdown_files)) in
      let w := print w MsgFileListSaved in
      let b :=
        fold_left (process_file (len markdown_files))
                  (enumerate1 markdown_files)
                  {| world := w;
                     successful_ingestions := 0;
                     failed_ingestions := 0 |} in
      {| world :=
           print (world b)
                 (MsgComplete (successful_ingestions b) (failed_ingestions b)
                              (len markdown_files));
         successful_ingestions := successful_ingestions b;
         failed_ingestions := failed_ingestions b |}
  end.

End Pipeline.

End Ingest.

(* ================================================================== *)
(** * [bot.py] *)
(* ================================================================== *)

Module Bot.
Import PyStr.

Section Formatter.

(** The values a retrieved metadata dict holds, and how an f-string
    prints one ([format(v, '')]). *)
Variable value : Type.
Variable format : value -> pystr.

Record Document := {
  page_content : pystr;
  metadata : list (pystr * value)
}.

(** The text an f-string shows for [metadata.get(key, default)]. *)
Fixpoint get (metadata : list (pystr * value)) (key default : pystr) : pystr :=
  match metadata with
  | [] => default
  | (k, v) :: rest => if str_eqb k key then format v else get rest key default
  end.

Definition nl : pystr := [10%N].
Definition quote : pystr := [34%N].

(** The f-string of lines 53-64. *)
Definition doc_context (i : nat) (doc : Document) : pystr :=
  let metadata := metadata doc in
  let header1 := get metadata (lit "Header 1") [] in
  let header2 := get metadata (lit "Header 2") [] in
  let header3 := get metadata (lit "Header 3") [] in
  let header_path := get metadata (lit "header_path") (lit "Root") in
  let source_file := get metadata (lit "source_file") (lit "Unknown") in
  let file_path := get metadata (lit "file_path") (lit "Unknown") in
  let section_hierarchy := get metadata (lit "section_hierarchy") (lit "{}") in
  nl ++ lit "===== DOCUMENT " ++ str_of_nat i ++ lit " =====" ++ nl
  ++ lit "FILE: " ++ source_file ++ nl
  ++ lit "PATH: " ++ file_path ++ nl
  ++ lit "SECTION_PATH: " ++ header_path ++ nl
  ++ lit "HEADERS: H1: " ++ quote ++ header1 ++ quote
  ++ lit " | H2: " ++ quote ++ header2 ++ quote
  ++ lit " | H3: " ++ quote ++ header3 ++ quote ++ nl
  ++ lit "HIERARCHY: " ++ section_hierarchy ++ nl
  ++ nl
  ++ lit "CONTENT:" ++ nl
  ++ page_content doc ++ nl
  ++ lit "===== END DOCUMENT " ++ str_of_nat i ++ lit " =====" ++ nl.

(** The loop of lines 39-66, from the index [i] on. *)
Fixpoint format_from (i : nat) (docs : list Document) (formatted_context : list pystr)
  : list pystr :=
  match docs with
  | [] => formatted_context
  | doc :: rest => format_from (S i) rest (formatted_context ++ [doc_context i doc])
  end.

(** [format_context_with_metadata(docs)] *)
Definition format_context_with_metadata (docs : list Document) : pystr :=
  join nl (format_from 1 docs []).

End Formatter.

(** ** The cleaning of the answer in [main] *)

Definition think_open : pystr := lit "<think>".
Definition think_close : pystr := lit "</think>".

(** Lines 176-179: the answer that is printed; [None] is the [IndexError]
    of an index into the list of fields. *)
Definition clean_answer (answer : pystr) : option pystr :=
  if contains answer think_open && contains answer think_close then
    option_map strip (nth_error (split_str answer think_close) 1)
  else if contains answer think_open then
    option_map strip (nth_error (split_str answer think_open) 0)
  else Some answer.

End Bot.

(* ================================================================== *)
(** * Sample inputs *)
(* ================================================================== *)

Module Sample.
Import PyStr OsPath Ingest.

(** A data folder that holds the one file [a.md]. *)
Definition file : pystr := lit "a.md".
Definition path : pystr := join data_folder file.
Definition folder : tree := [(data_folder, [], [file])].

Definition uuid4 (path : pystr) (i : nat) : pystr := lit "id-" ++ str_of_nat i.

(** What the splitter makes of a text of one line that is no header: one
    document with no header. *)
Definition one_chunk (text : pystr) : list Document :=
  [ {| page_content := text; header_metadata := [] |} ].

Definition world (t : tree) : World unit :=
  {| fs := t; vector_store := tt; stdout := [] |}.

(** The chunks of [a.md] when it holds the one line [text]. *)
Definition chunks_of (text : pystr) : list Chunk :=
  fst (chunk_markdown_file (U := ascii_only) (fun _ => Some text) one_chunk uuid4
         (world folder) path).

(** The example of the specification, "# A\ntext1\n## B\ntext2", and the
    two documents the splitter makes of it. *)
Definition two_sections : pystr :=
  lit "# A" ++ [nl] ++ lit "text1" ++ [nl] ++ lit "## B" ++ [nl] ++ lit "text2".

Definition two_documents (text : pystr) : list Document :=
  [ {| page_content := lit "# A" ++ [nl] ++ lit "text1";
       header_metadata := [(1%nat, lit "A")] |};
    {| page_content := lit "## B" ++ [nl] ++ lit "text2";
       header_metadata := [(1%nat, lit "A"); (2%nat, lit "B")] |} ].

(** A vector store whose every write fails, and the batch run with it. *)
Definition failing_store (s : unit) (documents : list Chunk) (ids : list pystr)
  : option unit := None.

Definition batch_with_failing_store : Batch unit :=
  ingest_all_markdown_files (U := ascii_only)
    (fun _ => Some (lit "some text")) one_chunk uuid4
    failing_store (world folder).

End Sample.

(* ================================================================== *)
(** * Properties *)
(* ================================================================== *)

Unset Implicit Arguments.
Import PyStr PyFloat OsPath Ingest.


Section StringFacts.

Lemma str_eqb_eq (a b : pystr) : str_eqb a b = true <-> a = b.
Proof.
  revert b; induction a as [|x a IH]; intros [|y b]; simpl; split;
    try congruence; try reflexivity.
  - intros H. apply andb_true_iff in H as [H1 H2].
    apply N.eqb_eq in H1. apply IH in H2. congruence.
  - intros H. injection H as -> ->. rewrite N.eqb_refl. simpl. now apply IH.
Qed.

Lemma count_from_absent (sub s : pystr) :
  contains s sub = false -> forall skip, count_from sub s skip = 0%nat.
Proof.
  induction s as [|c s IH]; intros H skip; [reflexivity|].
  cbn [contains] in H. apply orb_false_iff in H as [Hs Hc].
  cbn [count_from]. destruct skip as [|k].
  - rewrite Hs. now apply IH.
  - now apply IH.
Qed.

Lemma count_from_present (sub s : pystr) :
  sub <> [] -> contains s sub = true -> (0 < count_from sub s 0)%nat.
Proof.
  intros Hsub. induction s as [|c s IH]; intros H.
  - destruct sub; [congruence | discriminate].
  - cbn [contains] in H. cbn [count_from].
    destruct (startswith (c :: s) sub) eqn:E; [lia|].
    simpl in H. now apply IH.
Qed.

Lemma count_nonneg (s sub : pystr) : (0 <= count s sub)%Z.
Proof. unfold count. destruct sub; lia. Qed.

Lemma count_pos_iff (s sub : pystr) :
  sub <> [] -> ((0 < count s sub)%Z <-> contains s sub = true).
Proof.
  intros Hsub. unfold count. destruct sub as [|p sub']; [congruence|].
  split.
  - intros H. destruct (contains s (p :: sub')) eqn:E; [reflexivity|].
    rewrite (count_from_absent _ _ E) in H. lia.
  - intros H. apply (count_from_present _ _ Hsub) in H. lia.
Qed.

Lemma count_zero_iff (s sub : pystr) :
  sub <> [] -> (count s sub = 0%Z <-> contains s sub = false).
Proof.
  intros Hsub. pose proof (count_pos_iff s sub Hsub) as P.
  pose proof (count_nonneg s sub).
  destruct (contains s sub).
  - split; [|discriminate]. intros. assert (0 < count s sub)%Z by now apply P. lia.
  - split; [reflexivity|]. intros _.
    destruct (Z.eq_dec (count s sub) 0); [assumption|].
    assert (0 < count s sub)%Z by lia. apply P in H0. discriminate.
Qed.

End StringFacts.

Section LoopFacts.
Context {U : Unicode}.
Variables (path : pystr) (uuid4 : nat -> pystr) (n_splits : Z).

(** The value of the [prev_chunk_id] expression at index [j] of [l]. *)
Let prev_of (l : list Chunk) (j : nat) : pystr :=
  match j with
  | O => []
  | S j' =>
      match nth_error l j' with
      | Some c => chunk_id (metadata c)
      | None => []
      end
  end.

Lemma enrich_defined (chunks : list Chunk) (chunk : Document) (id : pystr) :
  enrich path n_splits chunks (List.length chunks) chunk id
  = Some (enrich_with path n_splits (List.length chunks) chunk id
            (prev_of chunks (List.length chunks))).
Proof.
  unfold enrich. destruct (List.length chunks) as [|j] eqn:E; [reflexivity|].
  cbn [Nat.ltb Nat.leb]. replace (S j - 0 - 1)%nat with j by lia.
  replace (S j - 1)%nat with j by lia.
  assert (Hj : (j < List.length chunks)%nat) by lia.
  destruct (nth_error chunks j) as [c|] eqn:N.
  - simpl. unfold prev_of. now rewrite N.
  - apply nth_error_None in N. lia.
Qed.

Lemma enrich_loop_spec (splits : list Document) :
  forall chunks : list Chunk,
  exists cs,
    enrich_loop path uuid4 n_splits splits (List.length chunks) chunks
    = Some (chunks ++ cs)
    /\ List.length cs = List.length splits
    /\ forall k chunk, nth_error splits k = Some chunk ->
         nth_error cs k
         = Some (enrich_with path n_splits (List.length chunks + k) chunk
                   (uuid4 (List.length chunks + k))
                   (prev_of (chunks ++ cs) (List.length chunks + k))).
Proof.
  induction splits as [|chunk rest IH]; intros chunks.
  - exists []. rewrite app_nil_r. split; [reflexivity|]. split; [reflexivity|].
    intros [|k] ? ?; discriminate.
  - cbn [enrich_loop]. rewrite enrich_defined.
    set (c0 := enrich_with _ _ _ _ _ _).
    destruct (IH (chunks ++ [c0])) as (cs & Hloop & Hlen & Hnth).
    rewrite length_app in Hloop, Hnth. cbn [List.length] in Hloop, Hnth.
    replace (List.length chunks + 1)%nat with (S (List.length chunks)) in * by lia.
    rewrite <- app_assoc in Hloop, Hnth. cbn [app] in Hloop, Hnth.
    exists (c0 :: cs). split; [exact Hloop|]. split; [simpl; lia|].
    intros [|k] d Hd.
    + cbn in Hd. injection Hd as <-. cbn [nth_error]. f_equal.
      rewrite Nat.add_0_r. unfold c0. f_equal.
      unfold prev_of. destruct (List.length chunks) as [|j] eqn:E; [reflexivity|].
      rewrite !nth_error_app1 by lia. reflexivity.
    + cbn in Hd. cbn [nth_error]. rewrite (Hnth k d Hd).
      replace (S (List.length chunks) + k)%nat with (List.length chunks + S k)%nat by lia.
      reflexivity.
Qed.

End LoopFacts.

Section LinkFacts.

Lemma link_step_none (l : list nat) : fold_left link_step l None = None.
Proof. induction l; simpl; auto. Qed.

Lemma link_step_cons (c : Chunk) (l : list Chunk) (i : nat) :
  link_step (Some (c :: l)) (S i) = option_map (cons c) (link_step (Some l) i).
Proof.
  unfold link_step, len. cbn [List.length nth_error Nat.add].
  replace (Z.of_nat (S i) <? Z.of_nat (S (List.length l)) - 1)%Z
    with (Z.of_nat i <? Z.of_nat (List.length l) - 1)%Z.
  2:{ destruct (Z.ltb_spec (Z.of_nat i) (Z.of_nat (List.length l) - 1));
      destruct (Z.ltb_spec (Z.of_nat (S i)) (Z.of_nat (S (List.length l)) - 1));
      try reflexivity; lia. }
  destruct (Z.of_nat i <? Z.of_nat (List.length l) - 1)%Z; [|reflexivity].
  destruct (nth_error l i); [|reflexivity].
  destruct (nth_error l (i + 1)); reflexivity.
Qed.

Lemma link_fold_cons (c : Chunk) (idx : list nat) :
  forall l : option (list Chunk),
    fold_left link_step (map S idx) (option_map (cons c) l)
    = option_map (cons c) (fold_left link_step idx l).
Proof.
  induction idx as [|i idx IH]; intros l; [reflexivity|].
  cbn [map fold_left]. destruct l as [l|].
  - cbn [option_map]. rewrite link_step_cons. apply IH.
  - cbn [option_map]. change (link_step None (S i)) with (@None (list Chunk)).
    change (link_step None i) with (@None (list Chunk)).
    rewrite !link_step_none. reflexivity.
Qed.

Lemma link_next_spec (cs : list Chunk) :
  exists out,
    link_next cs = Some out
    /\ List.length out = List.length cs
    /\ forall k c, nth_error cs k = Some c ->
         nth_error out k
         = Some (match nth_error cs (S k) with
                 | Some c' => set_next_chunk_id c (chunk_id (metadata c'))
                 | None => c
                 end).
Proof.
  induction cs as [|c l IH].
  - exists []. split; [reflexivity|]. split; [reflexivity|].
    intros [|k] ? ?; discriminate.
  - destruct IH as (out & Hout & Hlen & Hnth).
    set (c0 := match l with
               | c' :: _ => set_next_chunk_id c (chunk_id (metadata c'))
               | [] => c
               end).
    assert (H0 : link_step (Some (c :: l)) 0 = Some (c0 :: l)).
    { unfold link_step, len. cbn [List.length nth_error Nat.add]. subst c0.
      destruct l as [|c' l']; [reflexivity|].
      cbn [List.length].
      destruct (Z.ltb_spec (Z.of_nat 0) (Z.of_nat (S (S (List.length l'))) - 1)); [|lia].
      reflexivity. }
    exists (c0 :: out). split; [|split; [simpl; lia|]].
    + unfold link_next. cbn [List.length seq fold_left]. rewrite H0.
      rewrite <- seq_shift.
      change (Some (c0 :: l)) with (option_map (cons c0) (Some l)).
      rewrite link_fold_cons. unfold link_next in Hout. rewrite Hout. reflexivity.
    + intros [|k] d Hd.
      * cbn in Hd. injection Hd as <-. cbn [nth_error]. subst c0.
        destruct l; reflexivity.
      * cbn in Hd. cbn [nth_error]. exact (Hnth k d Hd).
Qed.

End LinkFacts.

Section BuildFacts.
Context {U : Unicode}.
Variables (path : pystr) (uuid4 : nat -> pystr).

(** The chunk at index [k] of the list that [build_chunks] returns. *)
Lemma build_chunks_spec (splits : list Document) :
  exists out,
    build_chunks path uuid4 splits = Some out
    /\ List.length out = List.length splits
    /\ forall k chunk, nth_error splits k = Some chunk ->
         let base :=
           enrich_with path (len splits) k chunk (uuid4 k)
             (match k with O => [] | S j => uuid4 j end) in
         nth_error out k
         = Some (match nth_error splits (S k) with
                 | Some _ => set_next_chunk_id base (uuid4 (S k))
                 | None => base
                 end).
Proof.
  unfold build_chunks.
  destruct (enrich_loop_spec path uuid4 (len splits) splits []) as (cs & Hloop & Hlen & Hnth).
  cbn [List.length app Nat.add] in Hloop, Hnth. rewrite Hloop.
  destruct (link_next_spec cs) as (out & Hout & Hlen' & Hnth').
  exists out. split; [exact Hout|]. split; [lia|].
  intros k chunk Hk. set (base := enrich_with _ _ _ _ _ _).
  assert (Hid : forall j d, nth_error splits j = Some d ->
            exists c, nth_error cs j = Some c /\ chunk_id (metadata c) = uuid4 j
                      /\ document c = d).
  { intros j d Hj. rewrite (Hnth j d Hj). eexists. split; [reflexivity|]. split; reflexivity. }
  assert (Hbase : nth_error cs k = Some base).
  { rewrite (Hnth k chunk Hk). f_equal. unfold base. f_equal.
    destruct k as [|j]; [reflexivity|].
    assert (Hj : (j < List.length splits)%nat).
    { apply nth_error_Some. assert (S j < List.length splits)%nat by (apply nth_error_Some; congruence). intros E.
      apply nth_error_None in E. lia. }
    destruct (nth_error splits j) as [d|] eqn:Ed; [|apply nth_error_None in Ed; lia].
    destruct (Hid j d Ed) as (c & Hc & Hcid & _). rewrite Hc. exact Hcid. }
  rewrite (Hnth' k base Hbase).
  destruct (nth_error splits (S k)) as [d|] eqn:Ed.
  - destruct (Hid (S k) d Ed) as (c & Hc & Hcid & _). rewrite Hc, Hcid. reflexivity.
  - assert (nth_error cs (S k) = None) as ->; [|reflexivity].
    apply nth_error_None. apply nth_error_None in Ed. lia.
Qed.

(** A property that the second pass does not disturb holds of every chunk
    returned as soon as it holds of what the loop body builds. *)
Lemma build_chunks_Forall (P : Chunk -> Prop) :
  (forall n i chunk id prev, P (enrich_with path n i chunk id prev)) ->
  (forall c id, P c -> P (set_next_chunk_id c id)) ->
  forall splits out,
    build_chunks path uuid4 splits = Some out -> Forall P out.
Proof.
  intros Hbody Hnext splits out Hb.
  destruct (build_chunks_spec splits) as (out' & Hb' & Hlen & Hnth).
  assert (out' = out) by congruence. subst out'.
  apply Forall_forall. intros c Hc.
  apply In_nth_error in Hc as [k Hk].
  assert (Hlt : (k < List.length splits)%nat).
  { rewrite <- Hlen. apply nth_error_Some. congruence. }
  destruct (nth_error splits k) as [d|] eqn:Ed; [|apply nth_error_None in Ed; lia].
  specialize (Hnth k d Ed). cbv zeta in Hnth.
  remember (nth_error splits (S k)) as following eqn:Ef.
  rewrite Hnth in Hk. injection Hk as <-.
  destruct following; [apply Hnext|]; apply Hbody.
Qed.

End BuildFacts.

Section ChunkFacts.
Context {U : Unicode}.
Variable load : pystr -> option pystr.
Variable split_text : pystr -> list Document.
Variable uuid4 : pystr -> nat -> pystr.
Variable Store : Type.

Lemma chunk_markdown_file_cases (w : World Store) (path : pystr) :
  fst (chunk_markdown_file load split_text uuid4 w path) = []
  \/ exists text,
       path_exists (fs w) path = true /\ load path = Some text
       /\ build_chunks path (uuid4 path) (split_text text)
          = Some (fst (chunk_markdown_file load split_text uuid4 w path)).
Proof.
  unfold chunk_markdown_file.
  destruct (path_exists (fs w) path) eqn:E; cbn [negb]; [|now left].
  destruct (load path) as [text|] eqn:L; [|now left].
  destruct (build_chunks path (uuid4 path) (split_text text)) as [chunks|] eqn:B;
    [|now left].
  right. exists text. cbn [fst]. auto.
Qed.

Lemma chunk_markdown_file_Forall (P : Chunk -> Prop) :
  (forall path n i chunk id prev, P (enrich_with path n i chunk id prev)) ->
  (forall c id, P c -> P (set_next_chunk_id c id)) ->
  forall (w : World Store) path,
    Forall P (fst (chunk_markdown_file load split_text uuid4 w path)).
Proof.
  intros Hbody Hnext w path.
  destruct (chunk_markdown_file_cases w path) as [-> | (text & _ & _ & Hb)].
  - constructor.
  - eapply build_chunks_Forall; [apply Hbody | exact Hnext | exact Hb].
Qed.

End ChunkFacts.



Section LinksCount.

Lemma nonempty_lit_open : lit "[" <> []. Proof. discriminate. Qed.

Lemma nonempty_lit_close : lit "](" <> []. Proof. discriminate. Qed.

Lemma links_cases (content : pystr) :
  (contains content (lit "[") = true /\ contains content (lit "](") = true
   /\ links content = count content (lit "](") /\ (0 < links content)%Z)
  \/ ((contains content (lit "[") = false \/ contains content (lit "](") = false)
      /\ links content = 0%Z).
Proof.
  unfold links, py_and.
  destruct (Z.eqb_spec (count content (lit "[")) 0) as [E|E].
  - right. split; [left; now apply count_zero_iff|assumption].
  - assert (H1 : contains content (lit "[") = true).
    { apply count_pos_iff; [discriminate|].
      pose proof (count_nonneg content (lit "[")). lia. }
    destruct (contains content (lit "](")) eqn:H2.
    + left. repeat split; try assumption.
      apply count_pos_iff; [discriminate|assumption].
    + right. split; [now right|]. apply count_zero_iff; [discriminate|assumption].
Qed.

(** C1, as amended: [links_count] is nonzero only if the content contains
    both "[" and "]("; when it contains both, [links_count] is the number
    of occurrences of "](" (the right operand of the [and]); otherwise it
    is 0; and [has_links] is true exactly when [links_count] is nonzero. *)
Theorem links_count_is_right_operand :
  forall (U : Unicode) load split_text uuid4 (Store : Type)
         (w : World Store) (path : pystr),
    Forall
      (fun c =>
         let content := page_content (document c) in
         let m := metadata c in
         (links_count m <> 0%Z ->
          contains content (lit "[") = true /\ contains content (lit "](") = true)
         /\ (contains content (lit "[") = true ->
             contains content (lit "](") = true ->
             links_count m = count content (lit "]("))
         /\ (contains content (lit "[") = false
             \/ contains content (lit "](") = false ->
             links_count m = 0%Z)
         /\ (has_links m = true <-> links_count m <> 0%Z))
      (fst (chunk_markdown_file load split_text uuid4 w path)).
Proof.
  intros. apply chunk_markdown_file_Forall.
  - intros p n i chunk id prev.
    cbv zeta. cbn [enrich_with document metadata links_count has_links].
    destruct (links_cases (page_content chunk))
      as [(H1 & H2 & H3 & H4) | (H1 & H2)].
    + split; [auto|]. split; [auto|]. split.
      * intros [E|E]; congruence.
      * split; [intros _; lia | intros _; apply Z.gtb_lt; lia].
    + split; [congruence|]. split.
      * intros A B. destruct H1; congruence.
      * split; [auto|]. rewrite H2. split; [discriminate | congruence].
  - intros c id H. exact H.
Qed.

(** C1 as the specification states it fails: on the content "[[a](b)"
    both markers occur, "[" occurs twice, and [links_count] is 1. *)
Lemma links_count_is_not_left_operand :
  ~ (forall (U : Unicode) load split_text uuid4 (Store : Type)
            (w : World Store) (path : pystr),
       Forall
         (fun c =>
            let content := page_content (document c) in
            let m := metadata c in
            (links_count m <> 0%Z ->
             contains content (lit "[") = true
             /\ contains content (lit "](") = true)
            /\ (contains content (lit "[") = true ->
                contains content (lit "](") = true ->
                links_count m = count content (lit "["))
            /\ (contains content (lit "[") = false
                \/ contains content (lit "](") = false ->
                links_count m = 0%Z)
            /\ (has_links m = true <-> links_count m <> 0%Z))
         (fst (chunk_markdown_file load split_text uuid4 w path))).
Proof.
  intros H.
  specialize (H ascii_only (fun _ => Some (lit "[[a](b)")) Sample.one_chunk
                Sample.uuid4 unit (Sample.world Sample.folder) Sample.path).
  apply Forall_inv in H. cbv zeta in H.
  destruct H as (_ & H & _).
  specialize (H eq_refl eq_refl). vm_compute in H. discriminate.
Qed.

End LinksCount.

Section FenceMarkers.

Lemma code_in_content_types (content : pystr) :
  In (lit "code") (split_on comma (PyStr.join (lit ",") (content_types_of content)))
  <-> (code_blocks content >? 0)%Z = true.
Proof.
  unfold content_types_of.
  destruct (code_blocks content >? 0)%Z, (links content >? 0)%Z,
    (images content >? 0)%Z, (tables content >? 0)%Z, (lists content >? 0)%Z;
    vm_compute; split; intros H; try reflexivity; try discriminate;
    try (left; reflexivity);
    repeat (destruct H as [H|H]; try discriminate H); try contradiction.
Qed.

(** C10, as amended: [has_code] is true, and "code" is one of the
    [content_types], exactly when the number [n] of fence markers is
    positive; [code_blocks_count] is [n // 2]; so when [n] is odd,
    [has_code] is true and "code" is a content type while
    [code_blocks_count] is [(n - 1) // 2], which leaves the unpaired
    marker out, and is 0 when [n] is 1. *)
Theorem fence_markers_and_code_blocks :
  forall (U : Unicode) load split_text uuid4 (Store : Type)
         (w : World Store) (path : pystr),
    Forall
      (fun c =>
         let m := metadata c in
         let n := count (page_content (document c)) (lit "```") in
         (has_code m = true <-> (0 < n)%Z)
         /\ (In (lit "code") (split_on comma (content_types m)) <-> (0 < n)%Z)
         /\ code_blocks_count m = (n / 2)%Z
         /\ (Z.odd n = true ->
             has_code m = true
             /\ In (lit "code") (split_on comma (content_types m))
             /\ code_blocks_count m = ((n - 1) / 2)%Z)
         /\ (n = 1%Z ->
             has_code m = true
             /\ In (lit "code") (split_on comma (content_types m))
             /\ code_blocks_count m = 0%Z))
      (fst (chunk_markdown_file load split_text uuid4 w path)).
Proof.
  intros. apply chunk_markdown_file_Forall; [|intros c id H; exact H].
  intros p k i chunk id prev. cbv zeta.
  cbn [enrich_with document metadata has_code content_types code_blocks_count].
  rewrite code_in_content_types. unfold code_blocks.
  set (n := count (page_content chunk) (lit "```")).
  pose proof (count_nonneg (page_content chunk) (lit "```")) as Hn. fold n in Hn.
  assert (Hpos : (n >? 0)%Z = true <-> (0 < n)%Z) by (rewrite Z.gtb_lt; tauto).
  split; [exact Hpos|]. split; [exact Hpos|]. split; [reflexivity|]. split.
  - intros Hodd.
    assert (n <> 0%Z) by (intros E; rewrite E in Hodd; discriminate).
    split; [apply Hpos; lia|]. split; [apply Hpos; lia|].
    apply Z.odd_spec in Hodd as [q Hq]. rewrite Hq.
    replace (2 * q + 1 - 1)%Z with (q * 2)%Z by lia.
    rewrite Z.div_mul by lia.
    symmetry. apply (Z.div_unique (2 * q + 1) 2 q 1); lia.
  - intros E.
    split; [apply Hpos; lia|]. split; [apply Hpos; lia|]. rewrite E. reflexivity.
Qed.

(** C10 as stated fails: the content "```a```b```" holds three fence
    markers, an odd number, and [code_blocks_count] is 1, not 0. *)
Lemma odd_fence_markers_can_count_a_block :
  ~ (forall (U : Unicode) load split_text uuid4 (Store : Type)
            (w : World Store) (path : pystr),
       Forall
         (fun c =>
            let m := metadata c in
            let n := count (page_content (document c)) (lit "```") in
            (has_code m = true <-> (0 < n)%Z)
            /\ (In (lit "code") (split_on comma (content_types m)) <-> (0 < n)%Z)
            /\ code_blocks_count m = (n / 2)%Z
            /\ (Z.odd n = true ->
                has_code m = true
                /\ In (lit "code") (split_on comma (content_types m))
                /\ code_blocks_count m = 0%Z))
         (fst (chunk_markdown_file load split_text uuid4 w path))).
Proof.
  intros H.
  specialize (H ascii_only (fun _ => Some (lit "```a```b```")) Sample.one_chunk
                Sample.uuid4 unit (Sample.world Sample.folder) Sample.path).
  apply Forall_inv in H. cbv zeta in H.
  destruct H as (_ & _ & _ & H).
  destruct (H eq_refl) as (_ & _ & E). vm_compute in E. discriminate.
Qed.

End FenceMarkers.



Section Navigation.

(** The navigation fields of the chunk at position [k], in terms of the
    identifiers drawn. *)
Lemma build_chunks_navigation {U : Unicode} (path : pystr) (uuid4 : nat -> pystr)
    (splits : list Document) (out : list Chunk) :
  build_chunks path uuid4 splits = Some out ->
  List.length out = List.length splits
  /\ forall k c, nth_error out k = Some c ->
       let m := metadata c in
       chunk_id m = uuid4 k
       /\ chunk_index m = Z.of_nat k
       /\ is_first_chunk m = (k =? 0)%nat
       /\ is_last_chunk m = (S k =? List.length out)%nat
       /\ prev_chunk_id m = match k with O => [] | S j => uuid4 j end
       /\ next_chunk_id m
          = if (S k <? List.length out)%nat then uuid4 (S k) else [].
Proof.
  intros Hb.
  destruct (build_chunks_spec path uuid4 splits) as (out' & Hb' & Hlen & Hnth).
  assert (out' = out) by congruence. subst out'. clear Hb'.
  split; [exact Hlen|]. intros k c Hc.
  assert (Hk : (k < List.length splits)%nat).
  { rewrite <- Hlen. apply nth_error_Some. congruence. }
  destruct (nth_error splits k) as [d|] eqn:Ed; [|apply nth_error_None in Ed; lia].
  pose proof (Hnth k d Ed) as Hck. cbv zeta in Hck.
  assert (Elast : (Z.of_nat k =? len splits - 1)%Z = (S k =? List.length out)%nat).
  { unfold len. rewrite Hlen.
    destruct (Nat.eqb_spec (S k) (List.length splits));
      [apply Z.eqb_eq | apply Z.eqb_neq]; lia. }
  remember (nth_error splits (S k)) as following eqn:Ef.
  rewrite Hc in Hck. injection Hck as ->.
  destruct following as [d'|]; symmetry in Ef;
    cbn [set_next_chunk_id enrich_with metadata document chunk_index
         is_first_chunk is_last_chunk prev_chunk_id next_chunk_id chunk_id];
    rewrite Elast; repeat (split; [reflexivity|]).
  - assert (S k < List.length splits)%nat by (apply nth_error_Some; congruence).
    destruct (Nat.ltb_spec (S k) (List.length out)); [reflexivity|lia].
  - apply nth_error_None in Ef.
    destruct (Nat.ltb_spec (S k) (List.length out)); [lia|reflexivity].
Qed.

(** C5: in the list of chunks that [chunk_markdown_file] returns, the chunk
    at position [i] has [chunk_index] [i]; [is_first_chunk] holds exactly
    at position 0 and [is_last_chunk] exactly at the last position; the
    first chunk has an empty [prev_chunk_id] and the last an empty
    [next_chunk_id]; and for two neighbours, [next_chunk_id] of the first
    is the [chunk_id] of the second and [prev_chunk_id] of the second is
    the [chunk_id] of the first. *)
Theorem chunks_doubly_linked :
  forall (U : Unicode) load split_text uuid4 (Store : Type)
         (w : World Store) (path : pystr) (i : nat) (c : Chunk),
    let chunks := fst (chunk_markdown_file load split_text uuid4 w path) in
    nth_error chunks i = Some c ->
    chunk_index (metadata c) = Z.of_nat i
    /\ (is_first_chunk (metadata c) = true <-> i = 0%nat)
    /\ (is_last_chunk (metadata c) = true <-> S i = List.length chunks)
    /\ (i = 0%nat -> prev_chunk_id (metadata c) = [])
    /\ (S i = List.length chunks -> next_chunk_id (metadata c) = [])
    /\ (forall c', nth_error chunks (S i) = Some c' ->
          next_chunk_id (metadata c) = chunk_id (metadata c')
          /\ prev_chunk_id (metadata c') = chunk_id (metadata c)).
Proof.
  intros U load split_text uuid4 Store w path i c chunks Hc.
  destruct (chunk_markdown_file_cases load split_text uuid4 Store w path)
    as [E | (text & _ & _ & Hb)].
  { subst chunks. rewrite E in Hc. destruct i; discriminate. }
  fold chunks in Hb.
  apply build_chunks_navigation in Hb as [Hlen Hnav].
  destruct (Hnav i c Hc) as (Hid & Hidx & Hfirst & Hlast & Hprev & Hnext).
  split; [exact Hidx|]. split; [rewrite Hfirst; apply Nat.eqb_eq|].
  split; [rewrite Hlast; apply Nat.eqb_eq|].
  split; [intros ->; exact Hprev|]. split.
  - intros E. rewrite Hnext.
    destruct (Nat.ltb_spec (S i) (List.length chunks)); [lia|reflexivity].
  - intros c' Hc'.
    destruct (Hnav (S i) c' Hc') as (Hid' & _ & _ & _ & Hprev' & _).
    assert (S i < List.length chunks)%nat by (apply nth_error_Some; congruence).
    rewrite Hnext, Hid', Hprev', Hid.
    destruct (Nat.ltb_spec (S i) (List.length chunks)); [split; reflexivity|lia].
Qed.

Lemma chunks_doubly_linked_witness :
  let chunks :=
    fst (chunk_markdown_file (U := ascii_only)
           (fun _ => Some Sample.two_sections) Sample.two_documents
           Sample.uuid4 (Sample.world Sample.folder) Sample.path) in
  exists c0 c1,
    chunks = [c0; c1]
    /\ next_chunk_id (metadata c0) = chunk_id (metadata c1)
    /\ prev_chunk_id (metadata c1) = chunk_id (metadata c0)
    /\ prev_chunk_id (metadata c0) = []
    /\ next_chunk_id (metadata c1) = [].
Proof.
  intros chunks.
  destruct chunks as [|c0 [|c1 [|c2 rest]]] eqn:E;
    try (vm_compute in E; discriminate E).
  exists c0, c1. split; [reflexivity|].
  pose proof (chunks_doubly_linked ascii_only
                (fun _ => Some Sample.two_sections) Sample.two_documents
                Sample.uuid4 unit (Sample.world Sample.folder) Sample.path) as H.
  cbv zeta in H. fold chunks in H. rewrite E in H.
  destruct (H 0%nat c0 eq_refl) as (_ & _ & _ & P0 & _ & L).
  destruct (L c1 eq_refl) as (N01 & P10).
  destruct (H 1%nat c1 eq_refl) as (_ & _ & _ & _ & N1 & _).
  split; [exact N01|]. split; [exact P10|]. split; [exact (P0 eq_refl)|].
  exact (N1 eq_refl).
Defined.

End Navigation.


Section PathFacts.

Lemma break_at_slash_app (u v : pystr) :
  ~ In slash u -> (v = [] \/ exists v', v = slash :: v') ->
  break_at_slash (u ++ v) = (u, v).
Proof.
  intros Hu Hv. induction u as [|c u IH]; cbn [app].
  - destruct Hv as [-> | (v' & ->)]; [reflexivity|].
    cbn [break_at_slash]. now rewrite N.eqb_refl.
  - cbn [break_at_slash].
    destruct (N.eqb_spec c slash) as [E|E].
    + exfalso. apply Hu. now left.
    + rewrite IH; [reflexivity|]. intros H. apply Hu. now right.
Qed.

Lemma break_at_slash_fst (s : pystr) : ~ In slash (fst (break_at_slash s)).
Proof.
  induction s as [|c s IH]; cbn [break_at_slash]; [intros []|].
  destruct (N.eqb_spec c slash) as [E|E]; [intros []|].
  destruct (break_at_slash s) as [a b]. cbn [fst] in *.
  intros [H|H]; [congruence | now apply IH].
Qed.

Lemma basename_no_slash (p : pystr) : ~ In slash (basename p).
Proof.
  unfold basename, split_last_slash.
  pose proof (break_at_slash_fst (rev p)) as H.
  destruct (break_at_slash (rev p)) as [tail head]. cbn [fst snd] in *.
  intros Hin. apply H. now apply in_rev.
Qed.

Lemma basename_app (a x : pystr) :
  ~ In slash x -> (a = [] \/ exists a', a = a' ++ [slash]) ->
  basename (a ++ x) = x.
Proof.
  intros Hx Ha. unfold basename, split_last_slash. rewrite rev_app_distr.
  rewrite break_at_slash_app.
  - cbn [snd]. apply rev_involutive.
  - intros H. apply Hx. now apply in_rev.
  - destruct Ha as [-> | (a' & ->)]; [now left|].
    right. exists (rev a'). rewrite rev_app_distr. reflexivity.
Qed.

Lemma endswith_slash (a : pystr) :
  endswith a [slash] = true -> exists a', a = a' ++ [slash].
Proof.
  unfold endswith. cbn [rev app]. intros H.
  destruct (rev a) as [|c r] eqn:E; [discriminate|].
  cbn [startswith] in H. apply andb_true_iff in H as [H _].
  apply N.eqb_eq in H. subst c.
  exists (rev r). rewrite <- (rev_involutive a), E. reflexivity.
Qed.

Lemma basename_join (d x : pystr) :
  ~ In slash x -> basename (join d x) = x.
Proof.
  intros Hx. unfold join.
  destruct (startswith x [slash]) eqn:S.
  { destruct x as [|c x]; [discriminate|]. cbn [startswith] in S.
    apply andb_true_iff in S as [S _]. apply N.eqb_eq in S.
    exfalso. apply Hx. left. now symmetry. }
  destruct (negb (nonempty d) || endswith d [slash]) eqn:C.
  - apply basename_app; [assumption|].
    apply orb_true_iff in C as [C|C].
    + left. destruct d; [reflexivity|discriminate].
    + right. now apply endswith_slash.
  - rewrite app_assoc. apply basename_app; [assumption|].
    right. now exists d.
Qed.

Lemma processed_name (p : pystr) :
  basename (processed_path p) = lit "_" ++ basename p.
Proof.
  unfold processed_path. apply basename_join.
  intros [H|H]; [discriminate|]. now apply (basename_no_slash p).
Qed.

End PathFacts.

Section WalkerFacts.
Context {U : Unicode}.

Lemma startswith_marker (name : pystr) :
  startswith (lit "_" ++ name) (lit "_") = true.
Proof. destruct name; reflexivity. Qed.

Lemma processed_name_skipped (p : pystr) :
  is_unprocessed_markdown (basename (processed_path p)) = false.
Proof.
  rewrite processed_name. unfold is_unprocessed_markdown.
  apply andb_false_iff. right. apply negb_false_iff. apply startswith_marker.
Qed.

Lemma find_in_folder (root : pystr) (files : list pystr) :
  forall acc,
    fold_left
      (fun markdown_files file =>
         if is_unprocessed_markdown file
         then markdown_files ++ [join root file]
         else markdown_files)
      files acc
    = acc ++ map (join root) (filter is_unprocessed_markdown files).
Proof.
  induction files as [|f files IH]; intros acc; cbn [fold_left filter].
  - now rewrite app_nil_r.
  - rewrite IH. destruct (is_unprocessed_markdown f); [|reflexivity].
    cbn [map]. now rewrite <- app_assoc.
Qed.

Lemma find_all_markdown_files_flat (walk : tree) :
  find_all_markdown_files walk
  = flat_map
      (fun entry : walk_entry =>
         let '(root, _, files) := entry in
         map (join root) (filter is_unprocessed_markdown files))
      walk.
Proof.
  unfold find_all_markdown_files.
  enough (H : forall acc,
             fold_left
               (fun markdown_files (entry : walk_entry) =>
                  let '(root, _, files) := entry in
                  fold_left
                    (fun markdown_files file =>
                       if is_unprocessed_markdown file
                       then markdown_files ++ [join root file]
                       else markdown_files)
                    files markdown_files)
               walk acc
             = acc ++ flat_map
                 (fun entry : walk_entry =>
                    let '(root, _, files) := entry in
                    map (join root) (filter is_unprocessed_markdown files))
                 walk)
    by apply (H []).
  induction walk as [|[[root dirs] files] walk IH]; intros acc; cbn [fold_left flat_map].
  - now rewrite app_nil_r.
  - rewrite IH, find_in_folder. now rewrite app_assoc.
Qed.

Lemma find_all_markdown_files_In (walk : tree) (p : pystr) :
  In p (find_all_markdown_files walk)
  <-> exists root dirs files file,
        In (root, dirs, files) walk /\ In file files
        /\ is_unprocessed_markdown file = true /\ p = join root file.
Proof.
  rewrite find_all_markdown_files_flat, in_flat_map. split.
  - intros ([[root dirs] files] & Hin & Hp).
    apply in_map_iff in Hp as (file & <- & Hf). apply filter_In in Hf as [Hf Hk].
    exists root, dirs, files, file. auto.
  - intros (root & dirs & files & file & Hin & Hf & Hk & ->).
    exists (root, dirs, files). split; [assumption|].
    apply in_map. apply filter_In. auto.
Qed.

Lemma marked_not_found (p : pystr) (t : tree) :
  marked p t -> ~ In p (find_all_markdown_files t).
Proof.
  intros M H. apply find_all_markdown_files_In in H
    as (root & dirs & files & file & Hin & Hf & Hk & ->).
  unfold is_unprocessed_markdown in Hk. apply andb_true_iff in Hk as [_ Hk].
  rewrite (M root dirs files file Hin Hf eq_refl) in Hk. discriminate.
Qed.

Lemma renamed_files (old new : pystr) (t : tree) root dirs files' :
  In (root, dirs, files') (map (rename_entry old new) t) ->
  exists files,
    In (root, dirs, files) t
    /\ files' = map (fun f => if str_eqb (join root f) old then basename new else f) files.
Proof.
  intros H. apply in_map_iff in H as ([[r d] fl] & E & Hin).
  cbn [rename_entry] in E. injection E as <- <- <-.
  now exists fl.
Qed.

Lemma is_file_spec (t : tree) (p : pystr) :
  is_file t p = true
  <-> exists root dirs files f,
        In (root, dirs, files) t /\ In f files /\ join root f = p.
Proof.
  unfold is_file. rewrite existsb_exists. split.
  - intros ([[root dirs] files] & Hin & H). apply existsb_exists in H as (f & Hf & E).
    apply str_eqb_eq in E. now exists root, dirs, files, f.
  - intros (root & dirs & files & f & Hin & Hf & E).
    exists (root, dirs, files). split; [assumption|].
    apply existsb_exists. exists f. split; [assumption|]. now apply str_eqb_eq.
Qed.

Lemma mark_processed_marks (t : tree) (p : pystr) : marked p (mark_processed t p).
Proof.
  unfold mark_processed, os_rename. destruct (is_file t p) eqn:F.
  - intros root dirs files' f' Hin Hf' E.
    apply renamed_files in Hin as (files & Hin & ->).
    apply in_map_iff in Hf' as (f & <- & Hf).
    destruct (str_eqb (join root f) p) eqn:S.
    + rewrite processed_name. apply startswith_marker.
    + rewrite E in S. assert (str_eqb p p = true) by now apply str_eqb_eq.
      congruence.
  - intros root dirs files f Hin Hf E.
    assert (is_file t p = true) by (apply is_file_spec; now exists root, dirs, files, f).
    congruence.
Qed.

Lemma mark_processed_keeps (t : tree) (p q : pystr) :
  marked p t -> marked p (mark_processed t q).
Proof.
  intros M. unfold mark_processed, os_rename. destruct (is_file t q); [|exact M].
  intros root dirs files' f' Hin Hf' E.
  apply renamed_files in Hin as (files & Hin & ->).
  apply in_map_iff in Hf' as (f & <- & Hf).
  destruct (str_eqb (join root f) q) eqn:S.
  - rewrite processed_name. apply startswith_marker.
  - exact (M root dirs files f Hin Hf E).
Qed.

Lemma marked_later (p : pystr) (later : list pystr) :
  forall t, marked p t -> marked p (fold_left mark_processed later t).
Proof.
  induction later as [|q later IH]; intros t M; [exact M|].
  cbn [fold_left]. apply IH. now apply mark_processed_keeps.
Qed.

End WalkerFacts.

Section Walker.

(** C8: [find_all_markdown_files] returns exactly the paths
    [os.path.join(root, file)] of the files under the root folder whose
    lowercased name ends in ".md" or ".markdown" and whose name does not
    start with "_"; a file that is found can be renamed to its "_" name;
    and after that rename the path is in no later result, whatever other
    files are renamed that way in between. *)
Theorem find_all_markdown_files_exact :
  forall (U : Unicode) (walk : tree),
    (forall p,
        In p (find_all_markdown_files walk)
        <-> exists root dirs files file,
              In (root, dirs, files) walk /\ In file files
              /\ endswith_any (lower file) [lit ".md"; lit ".markdown"] = true
              /\ startswith file (lit "_") = false
              /\ p = join root file)
    /\ (forall p,
           In p (find_all_markdown_files walk) ->
           os_rename p (processed_path p) walk = Some (mark_processed walk p))
    /\ (forall p later,
           ~ In p (find_all_markdown_files
                     (fold_left mark_processed later (mark_processed walk p)))).
Proof.
  intros U walk. split; [|split].
  - intros p. rewrite find_all_markdown_files_In. unfold is_unprocessed_markdown.
    split; intros (root & dirs & files & file & H).
    + exists root, dirs, files, file.
      destruct H as (H1 & H2 & H3 & H4). apply andb_true_iff in H3 as [H3 H5].
      apply negb_true_iff in H5. auto.
    + exists root, dirs, files, file.
      destruct H as (H1 & H2 & H3 & H4 & H5). rewrite H3, H4. auto.
  - intros p H. apply find_all_markdown_files_In in H
      as (root & dirs & files & file & Hin & Hf & _ & ->).
    unfold mark_processed, os_rename.
    assert (F : is_file walk (join root file) = true)
      by (apply is_file_spec; now exists root, dirs, files, file).
    rewrite F. reflexivity.
  - intros p later. apply marked_not_found, marked_later, mark_processed_marks.
Qed.

End Walker.



Section Formatter.

(** C9: for the empty sequence of documents the formatter returns the
    empty string, in which no marker occurs; and the result is a function
    of the sequence of documents alone. *)
Theorem format_context_of_no_documents :
  forall (value : Type) (format : value -> pystr),
    Bot.format_context_with_metadata format [] = []
    /\ contains (Bot.format_context_with_metadata format []) (lit "=====") = false
    /\ (forall docs docs' : list (Bot.Document value),
           docs = docs' ->
           Bot.format_context_with_metadata format docs
           = Bot.format_context_with_metadata format docs').
Proof.
  intros value format. split; [reflexivity|]. split; [reflexivity|].
  intros docs docs' ->. reflexivity.
Qed.

Lemma format_context_of_no_documents_witness :
  Bot.format_context_with_metadata (fun v : pystr => v) [] = []
  /\ Bot.format_context_with_metadata (fun v : pystr => v)
       [ {| Bot.page_content := lit "text"; Bot.metadata := [] |} ]
     = Bot.format_context_with_metadata (fun v : pystr => v)
         ([] ++ [ {| Bot.page_content := lit "text"; Bot.metadata := [] |} ]).
Proof.
  destruct (format_context_of_no_documents pystr (fun v => v)) as (E & _ & D).
  split; [exact E|]. apply D. reflexivity.
Defined.

End Formatter.

Section Batch.
Context {U : Unicode}.
Variable load : pystr -> option pystr.
Variable split_text : pystr -> list Document.
Variable uuid4 : pystr -> nat -> pystr.
Variable Store : Type.
Variable add_documents : Store -> list Chunk -> list pystr -> option Store.

Lemma chunk_markdown_file_fs (w : World Store) (path : pystr) :
  fs (snd (chunk_markdown_file load split_text uuid4 w path)) = fs w.
Proof.
  unfold chunk_markdown_file.
  destruct (negb (path_exists (fs w) path)); [reflexivity|].
  destruct (load path); [|reflexivity].
  destruct (build_chunks _ _ _); reflexivity.
Qed.

(** [ingest_markdown_file] leaves the tree alone, whatever the store
    answers. *)
Lemma ingest_markdown_file_fs (w : World Store) (path : pystr) :
  fs (ingest_markdown_file load split_text uuid4 add_documents w path) = fs w.
Proof.
  unfold ingest_markdown_file.
  pose proof (chunk_markdown_file_fs (print w (MsgStartIngest path)) path) as H.
  destruct (chunk_markdown_file load split_text uuid4 (print w (MsgStartIngest path)) path)
    as [chunks w'].
  cbn [snd] in H. cbn [print fs] in H.
  destruct chunks as [|c chunks]; [exact H|].
  destruct (add_documents _ _ _); exact H.
Qed.


End Batch.

Section FailedWrite.

(** C2, on a folder that holds the one file [a.md] and a store whose write
    fails: the failure is printed, and the batch then renames the file to
    [_a.md], counts it as successful, and leaves nothing to find. *)
Theorem failed_write_is_marked_processed :
  let b := Sample.batch_with_failing_store in
  In MsgErrorAdding (stdout (world b))
  /\ In (MsgMarked (lit "_a.md")) (stdout (world b))
  /\ fs (world b) = [(data_folder, [], [lit "_a.md"])]
  /\ successful_ingestions b = 1%Z
  /\ failed_ingestions b = 0%Z
  /\ find_all_markdown_files (U := ascii_only) (fs (world b)) = [].
Proof.
  vm_compute. repeat split; auto 10.
Qed.

End FailedWrite.

Section Keywords.

(** C3, on the content "hello, world": the token "hello," is dropped by the
    test [word.isalpha()] before [strip] is applied, so [keywords_estimate]
    is 1, where stripping first gives 2. *)
Theorem keywords_estimate_filters_before_strip :
  forall U : Unicode,
    keywords_estimate_of (lit "hello, world") = 1%Z
    /\ keywords_estimate_as_specified (lit "hello, world") = 2%Z
    /\ map (fun c => keywords_estimate (metadata c))
           (Sample.chunks_of (lit "hello, world")) = [1%Z].
Proof.
  intros U. split; [|split]; vm_compute; reflexivity.
Qed.

End Keywords.

Section Rounding.
Local Open Scope Z_scope.
Variables prec emax : Z.
Hypothesis prec_pos : 0 < prec.

Lemma digits2_pos_bound (m : positive) : Zpos m < 2 ^ Zpos (digits2_pos m).
Proof.
  induction m as [m IH|m IH|]; cbn [digits2_pos].
  - rewrite Pos2Z.inj_succ, Z.pow_succ_r by lia. lia.
  - rewrite Pos2Z.inj_succ, Z.pow_succ_r by lia. lia.
  - reflexivity.
Qed.

Lemma Zdigits2_bound (m : Z) : 0 <= m -> m < 2 ^ Zdigits2 m.
Proof.
  destruct m as [|p|p]; intros H; cbn [Zdigits2]; try lia.
  apply digits2_pos_bound.
Qed.

Lemma Zdigits2_nonneg (m : Z) : 0 <= Zdigits2 m.
Proof. destruct m; cbn; lia. Qed.

Lemma shr_1_m (mrs : shr_record) :
  0 <= shr_m mrs -> shr_m (shr_1 mrs) = shr_m mrs / 2.
Proof.
  destruct mrs as [m r s]. cbn [shr_m]. intros H.
  destruct m as [|[p|p|]|p]; cbn [shr_1 shr_m].
  - reflexivity.
  - apply (Z.div_unique (Zpos p~1) 2 (Zpos p) 1); lia.
  - apply (Z.div_unique (Zpos p~0) 2 (Zpos p) 0); lia.
  - reflexivity.
  - lia.
Qed.

Lemma iter_shr_1_m (p : positive) :
  forall mrs, 0 <= shr_m mrs ->
    shr_m (iter_pos shr_1 p mrs) = shr_m mrs / 2 ^ Zpos p.
Proof.
  induction p as [p IH|p IH|]; intros mrs H; cbn [iter_pos].
  - assert (H1 : 0 <= shr_m (shr_1 mrs)) by (rewrite shr_1_m by lia; apply Z.div_pos; lia).
    assert (H2 : 0 <= shr_m (iter_pos shr_1 p (shr_1 mrs)))
      by (rewrite IH by lia; apply Z.div_pos; lia).
    rewrite IH, IH, shr_1_m by lia.
    rewrite !Z.div_div by lia. f_equal.
    change (Zpos p~1) with (2 * Zpos p + 1).
    replace (2 * Zpos p + 1) with (1 + Zpos p + Zpos p) by lia.
    rewrite !Z.pow_add_r by lia. rewrite Z.pow_1_r. ring.
  - assert (H2 : 0 <= shr_m (iter_pos shr_1 p mrs))
      by (rewrite IH by lia; apply Z.div_pos; lia).
    rewrite IH, IH by lia. rewrite Z.div_div by lia. f_equal.
    change (Zpos p~0) with (2 * Zpos p).
    replace (2 * Zpos p) with (Zpos p + Zpos p) by lia.
    rewrite Z.pow_add_r by lia. ring.
  - rewrite shr_1_m by lia. reflexivity.
Qed.

Lemma shr_record_of_loc_m (m : Z) (l : location) :
  shr_m (shr_record_of_loc m l) = m.
Proof. destruct l as [|[]]; reflexivity. Qed.

Lemma shr_m_spec (mrs : shr_record) (e n : Z) :
  0 <= shr_m mrs ->
  shr_m (fst (shr mrs e n))
  = match n with Zpos _ => shr_m mrs / 2 ^ n | _ => shr_m mrs end.
Proof.
  intros H. destruct n as [|p|p]; cbn [shr fst]; try reflexivity.
  now apply iter_shr_1_m.
Qed.

Lemma shr_fexp_nonneg (m e : Z) (l : location) :
  0 <= m -> 0 <= shr_m (fst (shr_fexp prec emax m e l)).
Proof.
  intros H. unfold shr_fexp. rewrite shr_m_spec by (rewrite shr_record_of_loc_m; lia).
  rewrite shr_record_of_loc_m.
  destruct (fexp prec emax (Zdigits2 m + e) - e); try lia.
  apply Z.div_pos; lia.
Qed.

Lemma round_nearest_even_nonneg (m : Z) (l : location) :
  0 <= m -> 0 <= round_nearest_even m l.
Proof.
  intros H. destruct l as [|[]]; cbn [round_nearest_even]; try lia.
  destruct (Z.even m); lia.
Qed.

Lemma shr_fexp_bounded (m e : Z) (l : location) :
  0 <= m -> shr_m (fst (shr_fexp prec emax m e l)) < 2 ^ prec.
Proof.
  intros H. unfold shr_fexp. rewrite shr_m_spec by (rewrite shr_record_of_loc_m; lia).
  rewrite shr_record_of_loc_m.
  pose proof (Zdigits2_bound m H) as Hd. pose proof (Zdigits2_nonneg m) as Hd0.
  set (d := Zdigits2 m) in *.
  assert (Hn : d - prec <= fexp prec emax (d + e) - e) by (unfold fexp; lia).
  destruct (fexp prec emax (d + e) - e) as [|p|p] eqn:E.
  - apply Z.lt_le_trans with (1 := Hd). apply Z.pow_le_mono_r; lia.
  - apply Z.div_lt_upper_bound; [lia|].
    rewrite <- Z.pow_add_r by lia.
    apply Z.lt_le_trans with (1 := Hd). apply Z.pow_le_mono_r; lia.
  - apply Z.lt_le_trans with (1 := Hd). apply Z.pow_le_mono_r; lia.
Qed.

(** What [binary_round_aux] returns for a mantissa that is not negative:
    no NaN, the sign it was given, and a mantissa below [2 ^ prec]. *)
Lemma binary_round_aux_shape (sx : bool) (mx ex : Z) (lx : location) :
  0 <= mx ->
  match binary_round_aux prec emax sx mx ex lx with
  | S754_zero s | S754_infinity s => s = sx
  | S754_nan => False
  | S754_finite s m _ => s = sx /\ Zpos m < 2 ^ prec
  end.
Proof.
  intros H. unfold binary_round_aux.
  pose proof (shr_fexp_nonneg mx ex lx H) as H1.
  destruct (shr_fexp prec emax mx ex lx) as [mrs' e'] eqn:E1. cbn [fst] in H1.
  pose proof (round_nearest_even_nonneg (shr_m mrs') (loc_of_shr_record mrs') H1) as H2.
  set (m1 := round_nearest_even (shr_m mrs') (loc_of_shr_record mrs')) in *.
  pose proof (shr_fexp_nonneg m1 e' loc_Exact H2) as H3.
  pose proof (shr_fexp_bounded m1 e' loc_Exact H2) as H4.
  destruct (shr_fexp prec emax m1 e' loc_Exact) as [mrs'' e''] eqn:E2.
  cbn [fst] in H3, H4.
  destruct (shr_m mrs'') as [|m|m]; [reflexivity| |lia].
  destruct (e'' <=? emax - prec); [split; [reflexivity|exact H4] | reflexivity].
Qed.

Lemma binary_round_shape (sx : bool) (mx : positive) (ex : Z) :
  match binary_round prec emax sx mx ex with
  | S754_zero s | S754_infinity s => s = sx
  | S754_nan => False
  | S754_finite s m _ => s = sx /\ Zpos m < 2 ^ prec
  end.
Proof.
  unfold binary_round.
  destruct (shl_align mx ex (fexp prec emax (Zpos (digits2_pos mx) + ex))) as [mz ez].
  apply binary_round_aux_shape. lia.
Qed.

End Rounding.

Section FloatFacts.
Local Open Scope Z_scope.

Lemma prec_positive : 0 < prec.
Proof. reflexivity. Qed.

Lemma of_int_nonneg (n : Z) : 0 <= n -> nonneg (of_int n).
Proof.
  intros H. unfold of_int, binary_normalize. destruct n as [|p|p]; [reflexivity| |lia].
  apply (binary_round_shape prec emax prec_positive false p 0).
Qed.

(** The product by one of the positive constants of the formula. *)
Lemma fmul_nonneg (x : float) (mc : positive) (ec : Z) :
  nonneg x -> nonneg (fmul x (S754_finite false mc ec)).
Proof.
  destruct x as [s|s| |s m e]; cbn [nonneg]; intros H.
  - subst s. reflexivity.
  - subst s. reflexivity.
  - contradiction.
  - destruct H as [-> _]. unfold fmul. cbn [SFmul xorb].
    apply (binary_round_aux_shape prec emax prec_positive false). lia.
Qed.

Lemma fadd_nonneg (x y : float) : nonneg x -> nonneg y -> nonneg (fadd x y).
Proof.
  destruct x as [sx|sx| |sx mx ex], y as [sy|sy| |sy my ey];
    cbn [nonneg]; intros Hx Hy; try contradiction;
    repeat match goal with
           | H : _ /\ _ |- _ => destruct H
           end;
    subst; unfold fadd; cbn [SFadd];
    try (cbn [nonneg]; first [reflexivity | split; [reflexivity|assumption]]).
  cbn [cond_Zopp Z.add binary_normalize].
  apply (binary_round_shape prec emax prec_positive false).
Qed.

Lemma round_half_even_range (num den : Z) :
  0 <= num -> 0 < den -> num <= 1000 * den ->
  0 <= round_half_even num den <= 1000.
Proof.
  intros Hn Hd Hle. unfold round_half_even.
  pose proof (Z.div_mod num den ltac:(lia)) as E.
  pose proof (Z.mod_pos_bound num den Hd) as Hr.
  assert (Hq0 : 0 <= num / den) by (apply Z.div_pos; lia).
  assert (Hq : num / den <= 1000) by (apply Z.div_le_upper_bound; lia).
  set (q := num / den) in *. set (r := num mod den) in *.
  assert (Hq' : q = 1000 -> r = 0) by (intros Eq; rewrite Eq in E; lia).
  destruct (2 * r ?= den) eqn:C.
  - apply Z.compare_eq in C. destruct (Z.even q); lia.
  - lia.
  - apply Z.compare_gt_iff in C. lia.
Qed.

Lemma all_hundredths :
  forallb
    (fun n => in_0_10 (fdiv (exact_int (Z.of_nat n)) (S754_finite false 100 0)))
    (seq 1 1000) = true.
Proof. vm_compute. reflexivity. Qed.

Lemma hundredths_in_range (p : positive) :
  Zpos p <= 1000 ->
  in_0_10 (fdiv (S754_finite false p 0) (S754_finite false 100 0)) = true.
Proof.
  intros H. pose proof all_hundredths as All.
  rewrite forallb_forall in All.
  specialize (All (Pos.to_nat p)).
  rewrite positive_nat_Z in All. apply All. apply in_seq. lia.
Qed.

Lemma pow2_prec : 2 ^ prec = 9007199254740992.
Proof. vm_compute. reflexivity. Qed.

Lemma not_above_ten (m : positive) (e : Z) :
  Zpos m < 2 ^ prec ->
  flt f10 (S754_finite false m e) = false ->
  exists k, e = Zneg k /\ 100 * Zpos m <= 1000 * 2 ^ Zpos k.
Proof.
  intros Hm H. rewrite pow2_prec in Hm.
  unfold flt, SFltb, f10 in H. cbn [SFcompare] in H.
  destruct (Z.compare_spec (-49) e) as [E|E|E].
  - subst e. exists 49%positive. split; [reflexivity|].
    change (2 ^ 49) with 562949953421312.
    destruct (Pos.compare_cont Eq 5629499534213120 m) eqn:C.
    + apply Pos.compare_eq in C. subst m. lia.
    + discriminate.
    + apply Pos.compare_gt_iff in C. assert (Hlt : Zpos m < 5629499534213120) by exact C. clear C. lia.
  - discriminate.
  - destruct e as [|k|k]. 
    + lia.
    + lia.
    + exists k. split; [reflexivity|].
    assert (2 ^ 50 <= 2 ^ Zpos k) by (apply Z.pow_le_mono_r; lia).
    change (2 ^ 50) with 1125899906842624 in *. lia.
Qed.

(** The clamp and the rounding of lines 200-201 bring every float that is
    not negative into [0, 10]. *)
Lemma clamp_round_in_range (x : float) :
  nonneg x -> in_0_10 (round2 (py_min x f10)) = true.
Proof.
  intros Hx. unfold py_min. destruct (flt f10 x) eqn:C.
  - vm_compute. reflexivity.
  - destruct x as [s|s| |s m e]; cbn [nonneg] in Hx.
    + subst s. vm_compute. reflexivity.
    + subst s. vm_compute in C. discriminate C.
    + contradiction.
    + destruct Hx as [-> Hm].
      destruct (not_above_ten m e Hm C) as (k & -> & Hk).
      cbn [round2].
      assert (Hpow : 0 < 2 ^ Zpos k) by (apply Z.pow_pos_nonneg; lia).
      pose proof (round_half_even_range (100 * Zpos m) (2 ^ Zpos k)
                    ltac:(lia) Hpow Hk) as R.
      destruct (round_half_even (100 * Zpos m) (2 ^ Zpos k)) as [|p|p].
      * vm_compute. reflexivity.
      * apply hundredths_in_range. lia.
      * lia.
Qed.

Lemma complexity_in_range (a b c d : Z) :
  0 <= a -> 0 <= b -> 0 <= c -> 0 <= d ->
  in_0_10 (complexity a b c d) = true.
Proof.
  intros Ha Hb Hc Hd. unfold complexity. apply clamp_round_in_range.
  repeat apply fadd_nonneg; apply fmul_nonneg; now apply of_int_nonneg.
Qed.

End FloatFacts.

Section Complexity.

Lemma len_nonneg {A : Type} (l : list A) : (0 <= len l)%Z.
Proof. unfold len. lia. Qed.

Lemma max_header_level_nonneg (chunk : Document) :
  (0 <= max_header_level_of chunk)%Z.
Proof.
  unfold max_header_level_of. destruct (map fst (header_levels chunk)); lia.
Qed.

Lemma content_types_count (content : pystr) :
  len (split_on comma (PyStr.join (lit ",") (content_types_of content)))
  = len (content_types_of content).
Proof.
  unfold content_types_of.
  destruct (code_blocks content >? 0)%Z, (links content >? 0)%Z,
    (images content >? 0)%Z, (tables content >? 0)%Z, (lists content >? 0)%Z;
    vm_compute; reflexivity.
Qed.

(** C7: the [complexity_score] of every chunk that [chunk_markdown_file]
    returns satisfies [0 <= score <= 10]. *)
Theorem complexity_score_in_range :
  forall (U : Unicode) load split_text uuid4 (Store : Type)
         (w : World Store) (path : pystr),
    Forall
      (fun c => in_0_10 (complexity_score (metadata c)) = true)
      (fst (chunk_markdown_file load split_text uuid4 w path)).
Proof.
  intros. apply (chunk_markdown_file_Forall load split_text uuid4 Store
                   (fun c => in_0_10 (complexity_score (metadata c)) = true)).
  - intros p n i chunk id prev.
    cbn [enrich_with metadata complexity_score].
    apply complexity_in_range.
    + apply max_header_level_nonneg.
    + apply len_nonneg.
    + apply count_nonneg.
    + apply count_nonneg.
  - intros c id H. exact H.
Qed.

(** C4, as amended: [complexity_score] is
    [min(max_header_level*0.3 + n_types*0.2 + fences*0.5 + pipes*0.3, 10.0)]
    rounded to 2 decimals, where [n_types] is the number of entries of
    [content_types], [fences] is the number of occurrences of the fence
    marker (not halved: twice [code_blocks_count], plus one when the count
    is odd) and [pipes] is the number of "|" characters,
    [table_rows_estimate]. *)
Theorem complexity_score_formula :
  forall (U : Unicode) load split_text uuid4 (Store : Type)
         (w : World Store) (path : pystr),
    Forall
      (fun c =>
         let content := page_content (document c) in
         let m := metadata c in
         let fences := count content (lit "```") in
         complexity_score m
         = round2
             (py_min
                (fadd
                   (fadd
                      (fadd (fmul (of_int (max_header_level m)) f0_3)
                            (fmul (of_int (len (split_on comma (content_types m))))
                                  f0_2))
                      (fmul (of_int fences) f0_5))
                   (fmul (of_int (table_rows_estimate m)) f0_3))
                f10)
         /\ code_blocks_count m = (fences / 2)%Z
         /\ fences = (2 * code_blocks_count m + fences mod 2)%Z
         /\ table_rows_estimate m = count content (lit "|"))
      (fst (chunk_markdown_file load split_text uuid4 w path)).
Proof.
  intros. apply chunk_markdown_file_Forall; [|intros c id H; exact H].
  intros p n i chunk id prev. cbv zeta.
  cbn [enrich_with metadata document complexity_score max_header_level
       content_types code_blocks_count table_rows_estimate].
  rewrite content_types_count.
  split; [reflexivity|]. split; [reflexivity|]. split; [|reflexivity].
  unfold code_blocks. apply Z.div_mod. lia.
Qed.

(** C4 as stated fails: for the content "```x```" (one pair of fence
    markers, so [code_blocks_count] is 1) the score is 1.2, where the
    formula with [code_blocks_count] gives 0.7. *)
Lemma complexity_score_uses_marker_count :
  ~ (forall (U : Unicode) load split_text uuid4 (Store : Type)
            (w : World Store) (path : pystr),
       Forall
         (fun c =>
            let m := metadata c in
            complexity_score m
            = round2
                (py_min
                   (fadd
                      (fadd
                         (fadd (fmul (of_int (max_header_level m)) f0_3)
                               (fmul (of_int (len (split_on comma (content_types m))))
                                     f0_2))
                         (fmul (of_int (code_blocks_count m)) f0_5))
                      (fmul (of_int (table_rows_estimate m)) f0_3))
                   f10))
         (fst (chunk_markdown_file load split_text uuid4 w path))).
Proof.
  intros H.
  specialize (H ascii_only (fun _ => Some (lit "```x```")) Sample.one_chunk
                Sample.uuid4 unit (Sample.world Sample.folder) Sample.path).
  apply Forall_inv in H. vm_compute in H. discriminate H.
Qed.

End Complexity.

Section Contents.
Context {U : Unicode}.

(** The enrichment keeps the documents of the splitter, in their order. *)
Lemma build_chunks_documents (path : pystr) (uuid4 : nat -> pystr)
    (splits : list Document) (out : list Chunk) :
  build_chunks path uuid4 splits = Some out -> map document out = splits.
Proof.
  intros Hb.
  destruct (build_chunks_spec path uuid4 splits) as (out' & Hb' & Hlen & Hnth).
  assert (out' = out) by congruence. subst out'. clear Hb'.
  apply nth_error_ext. intros k. rewrite nth_error_map.
  destruct (nth_error splits k) as [d|] eqn:Ed.
  - specialize (Hnth k d Ed). cbv zeta in Hnth.
    remember (nth_error splits (S k)) as following.
    rewrite Hnth. destruct following; reflexivity.
  - assert (nth_error out k = None) as ->; [|reflexivity].
    apply nth_error_None. apply nth_error_None in Ed. lia.
Qed.

(** When the file exists and loads, [chunk_markdown_file] returns one
    chunk for each document of the splitter, with the same content. *)
Lemma chunk_markdown_file_documents
    (load : pystr -> option pystr) (split_text : pystr -> list Document)
    (uuid4 : pystr -> nat -> pystr) (Store : Type)
    (w : World Store) (path text : pystr) :
  path_exists (fs w) path = true -> load path = Some text ->
  map document (fst (chunk_markdown_file load split_text uuid4 w path))
  = split_text text.
Proof.
  intros He Hl. unfold chunk_markdown_file. rewrite He, Hl. cbn [negb].
  destruct (build_chunks_spec path (uuid4 path) (split_text text))
    as (out & Hb & _ & _).
  rewrite Hb. cbn [fst]. exact (build_chunks_documents _ _ _ _ Hb).
Qed.

End Contents.

Section DeadStrip.

Lemma lstrip_when_none (p : char -> bool) (s : pystr) :
  forallb (fun c => negb (p c)) s = true -> lstrip_when p s = s.
Proof.
  destruct s as [|c s]; [reflexivity|]. cbn [forallb lstrip_when].
  intros H. apply andb_true_iff in H as [H _].
  apply negb_true_iff in H. now rewrite H.
Qed.

Lemma strip_when_none (p : char -> bool) (s : pystr) :
  forallb (fun c => negb (p c)) s = true -> strip_when p s = s.
Proof.
  intros H. unfold strip_when. rewrite (lstrip_when_none p s H).
  rewrite lstrip_when_none; [apply rev_involutive|].
  apply forallb_forall. intros c Hc. apply in_rev in Hc.
  rewrite forallb_forall in H. now apply H.
Qed.

Lemma lowercase_letter_not_punctuation (c : char) :
  (97 <= c <= 122)%N -> mem c punctuation = false.
Proof.
  intros H. unfold mem.
  assert (P : forallb (fun k => ((k <? 97) || (122 <? k))%N) punctuation = true)
    by (vm_compute; reflexivity).
  rewrite forallb_forall in P.
  destruct (existsb (N.eqb c) punctuation) eqn:E; [|reflexivity].
  apply existsb_exists in E as (k & Hk & Ek). apply N.eqb_eq in Ek. subst k.
  specialize (P c Hk). apply orb_true_iff in P as [P|P]; apply N.ltb_lt in P; lia.
Qed.

(** On a token of ASCII letters, which is what passes the test
    [word.isalpha()] in ASCII text, the [strip] of line 204 removes
    nothing. *)
Lemma strip_is_idle_on_ascii_words {U : Unicode} (word : pystr) :
  isalpha word = true -> forallb is_ascii word = true ->
  strip_chars punctuation (lower word) = lower word.
Proof.
  intros Ha Hascii. unfold lower. rewrite Hascii. unfold strip_chars.
  apply strip_when_none. apply forallb_forall. intros c Hc.
  apply in_map_iff in Hc as (c0 & <- & Hc0).
  unfold isalpha in Ha. apply andb_true_iff in Ha as [_ Ha].
  rewrite forallb_forall in Ha, Hascii.
  specialize (Ha c0 Hc0). specialize (Hascii c0 Hc0).
  unfold isalpha_char in Ha. rewrite Hascii in Ha.
  apply negb_true_iff. apply lowercase_letter_not_punctuation.
  unfold lower_ascii.
  apply orb_true_iff in Ha as [Ha|Ha]; apply andb_true_iff in Ha as [A B];
    apply N.leb_le in A; apply N.leb_le in B.
  - replace ((65 <=? c0) && (c0 <=? 90))%N with true; [lia|].
    symmetry. apply andb_true_iff. split; now apply N.leb_le.
  - replace ((65 <=? c0) && (c0 <=? 90))%N with false; [lia|].
    symmetry. apply andb_false_iff. right. apply N.leb_gt. lia.
Qed.

End DeadStrip.

(* ================================================================== *)
(** * Further properties of the code *)
(* ================================================================== *)

Section ContentTypes.



End ContentTypes.


Section InlineCode.

Lemma count_from_tick_cons (c : char) (s : pystr) :
  count_from (lit "`") (c :: s) 0
  = ((if N.eqb c 96 then 1 else 0) + count_from (lit "`") s 0)%nat.
Proof.
  cbn [count_from lit list_ascii_of_string map startswith List.length Nat.sub].
  change (N_of_ascii "`") with 96%N.
  destruct (N.eqb c 96); destruct s; reflexivity.
Qed.

Lemma startswith_fence (c : char) (s : pystr) :
  startswith (c :: s) (lit "```") = true ->
  c = 96%N /\ firstn 2 s = repeat 96%N 2.
Proof.
  cbn [lit list_ascii_of_string map startswith].
  change (N_of_ascii "`") with 96%N.
  intros H. apply andb_true_iff in H as [H1 H].
  apply N.eqb_eq in H1. split; [assumption|].
  destruct s as [|a s]; [discriminate|].
  apply andb_true_iff in H as [H2 H]. apply N.eqb_eq in H2.
  destruct s as [|b s]; [discriminate|].
  apply andb_true_iff in H as [H3 _]. apply N.eqb_eq in H3.
  subst. reflexivity.
Qed.

(** Every fence marker found takes three backticks that no other marker
    shares: [k] is the number of backticks that the marker found last
    still covers. *)
Lemma fence_backticks (s : pystr) :
  forall k, firstn k s = repeat 96%N k ->
    (3 * count_from (lit "```") s k + k <= count_from (lit "`") s 0)%nat.
Proof.
  induction s as [|c s IH]; intros k Hk.
  - destruct k; [simpl; lia | discriminate].
  - rewrite count_from_tick_cons. destruct k as [|k].
    + cbn [count_from].
      destruct (startswith (c :: s) (lit "```")) eqn:E.
      * apply startswith_fence in E as [-> E].
        specialize (IH 2%nat E).
        change (List.length (lit "```") - 1)%nat with 2%nat.
        change (N.eqb 96 96) with true. cbv iota. lia.
      * specialize (IH 0%nat eq_refl). lia.
    + cbn [firstn repeat] in Hk. injection Hk as -> Hk.
      cbn [count_from]. specialize (IH k Hk).
      change (N.eqb 96 96) with true. cbv iota. lia.
Qed.

Lemma inline_code_bound (content : pystr) :
  (0 <= code_blocks content <= inline_code content)%Z.
Proof.
  unfold inline_code, code_blocks.
  pose proof (fence_backticks content 0 eq_refl) as H.
  unfold count. cbn [lit list_ascii_of_string map] in *. lia.
Qed.

(** X2: The backticks of a fence marker are counted as inline code: of the
    three backticks of each marker two are subtracted, so
    [inline_code_count] is never negative and never less than
    [code_blocks_count]. *)
Theorem inline_code_count_covers_code_blocks :
  forall (U : Unicode) load split_text uuid4 (Store : Type)
         (w : World Store) (path : pystr),
    Forall
      (fun c =>
         let m := metadata c in
         let content := page_content (document c) in
         inline_code_count m
         = ((count content (lit "`") - 2 * count content (lit "```")) / 2)%Z
         /\ (0 <= code_blocks_count m <= inline_code_count m)%Z)
      (fst (chunk_markdown_file load split_text uuid4 w path)).
Proof.
  intros. apply chunk_markdown_file_Forall; [|intros c id H; exact H].
  intros p n i chunk id prev. cbv zeta.
  cbn [enrich_with document metadata inline_code_count code_blocks_count].
  pose proof (inline_code_bound (page_content chunk)) as [H0 H1].
  split.
  - unfold inline_code, code_blocks. f_equal. lia.
  - split; [apply Z.div_pos; lia | apply Z.div_le_mono; lia].
Qed.

End InlineCode.

Section LineMetrics.

Lemma split_when_length (p : char -> bool) (s : pystr) :
  List.length (split_when p s) = S (List.length (filter p s)).
Proof.
  induction s as [|c s IH]; [reflexivity|].
  cbn [split_when filter]. destruct (p c).
  - cbn [List.length]. now rewrite IH.
  - destruct (split_when p s) as [|w ws]; [discriminate|].
    cbn [List.length] in *. exact IH.
Qed.

Lemma count_from_char (c : char) (s : pystr) :
  count_from [c] s 0 = List.length (filter (N.eqb c) s).
Proof.
  induction s as [|a s IH]; [reflexivity|].
  cbn [count_from startswith List.length Nat.sub filter].
  rewrite (N.eqb_sym c a).
  destruct (N.eqb a c).
  - destruct s; cbn [andb List.length]; now rewrite IH.
  - cbn [andb]. exact IH.
Qed.

Lemma lines_length (content : pystr) :
  len (lines content) = (count content [nl] + 1)%Z.
Proof.
  unfold len, lines, split_on, count.
  rewrite split_when_length, count_from_char, Nat2Z.inj_succ. reflexivity.
Qed.

Lemma filter_length_le {A : Type} (f : A -> bool) (l : list A) :
  (List.length (filter f l) <= List.length l)%nat.
Proof.
  induction l as [|x l IH]; [simpl; lia|].
  simpl. destruct (f x); simpl; lia.
Qed.

Lemma filter_length_mono {A : Type} (f g : A -> bool) (l : list A) :
  (forall x, f x = true -> g x = true) ->
  (List.length (filter f l) <= List.length (filter g l))%nat.
Proof.
  intros H. induction l as [|x l IH]; [simpl; lia|].
  simpl. destruct (f x) eqn:E.
  - rewrite (H x E). simpl. lia.
  - destruct (g x); simpl; lia.
Qed.

Lemma startswith_nil (prefix : pystr) :
  prefix <> [] -> startswith [] prefix = false.
Proof. destruct prefix; [congruence | reflexivity]. Qed.

Lemma list_line_nonempty (line : pystr) :
  is_list_line line = true -> nonempty (strip line) = true.
Proof.
  unfold is_list_line. destruct (strip line) as [|c l]; [|reflexivity].
  intros H. apply orb_true_iff in H as [H|H].
  - vm_compute in H. discriminate.
  - apply existsb_exists in H as (p & Hp & Hs).
    unfold ordinal_prefixes in Hp. apply in_map_iff in Hp as (j & <- & _).
    rewrite startswith_nil in Hs; [discriminate|].
    destruct (str_of_nat j); discriminate.
Qed.

(** X3: [line_count] is one more than the number of line feeds, so at least
    1 also for an empty chunk; the lines counted as list items are among
    the non-empty lines, and these among the lines. *)
Theorem line_counts_ordered :
  forall (U : Unicode) load split_text uuid4 (Store : Type)
         (w : World Store) (path : pystr),
    Forall
      (fun c =>
         let m := metadata c in
         let content := page_content (document c) in
         line_count m = (count content [nl] + 1)%Z
         /\ (0 <= list_items_count m <= non_empty_lines m)%Z
         /\ (non_empty_lines m <= line_count m)%Z)
      (fst (chunk_markdown_file load split_text uuid4 w path)).
Proof.
  intros. apply chunk_markdown_file_Forall; [|intros c id H; exact H].
  intros p n i chunk id prev. cbv zeta.
  cbn [enrich_with document metadata line_count list_items_count non_empty_lines].
  split; [apply lines_length|].
  unfold lists, non_empty_lines_of, len. rewrite length_map.
  pose proof (filter_length_mono is_list_line
                (fun line => nonempty (strip line)) (lines (page_content chunk))
                list_line_nonempty).
  pose proof (filter_length_le (fun line => nonempty (strip line))
                (lines (page_content chunk))).
  lia.
Qed.

End LineMetrics.

Section WordMetrics.
Context {U : Unicode}.

Lemma split_length_le (s : pystr) :
  (List.length (split s) <= List.length s)%nat.
Proof.
  unfold split. induction s as [|c s IH]; [simpl; lia|].
  cbn [split_when]. destruct (isspace c).
  - cbn [filter nonempty List.length]. lia.
  - destruct (split_when isspace s) as [|w ws]; [simpl; lia|].
    cbn [filter nonempty List.length] in *.
    destruct w; cbn [nonempty List.length] in IH; lia.
Qed.

Lemma nodup_length_le (l : list pystr) :
  (List.length (nodup str_eq_dec l) <= List.length l)%nat.
Proof.
  induction l as [|x l IH]; [simpl; lia|].
  simpl. destruct (in_dec str_eq_dec x l); simpl; lia.
Qed.

Lemma keywords_le_words (content : pystr) :
  (0 <= keywords_estimate_of content <= len (split content))%Z.
Proof.
  unfold keywords_estimate_of, keywords, len. split; [apply Nat2Z.is_nonneg|].
  apply Nat2Z.inj_le.
  eapply Nat.le_trans; [apply nodup_length_le|].
  rewrite length_map. apply filter_length_le.
Qed.

Lemma words_le_length (content : pystr) :
  (len (split content) <= len content)%Z.
Proof. unfold len. apply Nat2Z.inj_le. apply split_length_le. Qed.

End WordMetrics.

(** X4: [keywords_estimate] is at most [word_count], which is at most
    [chunk_length]; a chunk without words has no keyword and no
    entity. *)
Theorem keywords_words_length :
  forall (U : Unicode) load split_text uuid4 (Store : Type)
         (w : World Store) (path : pystr),
    Forall
      (fun c =>
         let m := metadata c in
         (0 <= keywords_estimate m <= word_count m)%Z
         /\ (word_count m <= chunk_length m)%Z
         /\ (word_count m = 0%Z ->
             keywords_estimate m = 0%Z /\ potential_entities m = []))
      (fst (chunk_markdown_file load split_text uuid4 w path)).
Proof.
  intros. apply chunk_markdown_file_Forall; [|intros c id H; exact H].
  intros p n i chunk id prev. cbv zeta.
  cbn [enrich_with document metadata keywords_estimate word_count chunk_length
       potential_entities].
  pose proof (keywords_le_words (page_content chunk)) as H1.
  pose proof (words_le_length (page_content chunk)) as H2.
  split; [exact H1|]. split; [exact H2|].
  intros E. unfold keywords_estimate_of, keywords, potential_entities_of.
  destruct (split (page_content chunk)); [split; reflexivity | discriminate E].
Qed.


Section JoinSplit.

Lemma split_when_no_sep (p : char -> bool) (u : pystr) :
  forallb (fun c => negb (p c)) u = true -> split_when p u = [u].
Proof.
  induction u as [|c u IH]; [reflexivity|].
  cbn [forallb split_when]. intros H. apply andb_true_iff in H as [Hc Hu].
  apply negb_true_iff in Hc. rewrite Hc, (IH Hu). reflexivity.
Qed.

Lemma split_when_app_sep (p : char -> bool) (u v : pystr) (x : char) :
  forallb (fun c => negb (p c)) u = true -> p x = true ->
  split_when p (u ++ x :: v) = u :: split_when p v.
Proof.
  intros Hu Hx. induction u as [|c u IH]; cbn [app split_when].
  - now rewrite Hx.
  - cbn [forallb] in Hu. apply andb_true_iff in Hu as [Hc Hu].
    apply negb_true_iff in Hc. rewrite Hc, (IH Hu). reflexivity.
Qed.

(** [sep.join(parts).split(sep)] gives the parts back when there is at
    least one and none holds the separator. *)
Lemma split_join (sep : char) (parts : list pystr) :
  parts <> [] ->
  Forall (fun part => forallb (fun c => negb (N.eqb sep c)) part = true) parts ->
  split_on sep (PyStr.join [sep] parts) = parts.
Proof.
  unfold split_on. induction parts as [|p rest IH]; [congruence|].
  intros _ H. inversion H as [|? ? Hp Hrest]; subst.
  destruct rest as [|q rest].
  - cbn [PyStr.join]. now apply split_when_no_sep.
  - change (PyStr.join [sep] (p :: q :: rest))
      with (p ++ sep :: PyStr.join [sep] (q :: rest)).
    rewrite split_when_app_sep; [|assumption|apply N.eqb_refl].
    rewrite IH; [reflexivity|discriminate|assumption].
Qed.

Lemma join_nil_iff (sep : pystr) (parts : list pystr) :
  Forall (fun part => part <> []) parts ->
  (PyStr.join sep parts = [] <-> parts = []).
Proof.
  intros H. split; [|intros ->; reflexivity].
  destruct parts as [|p rest]; [reflexivity|].
  inversion H as [|? ? Hp _]; subst. intros E. exfalso. apply Hp.
  destruct rest; cbn [PyStr.join] in E; [assumption|].
  now apply app_eq_nil in E as [E _].
Qed.

Lemma firstn_In {A : Type} (n : nat) (l : list A) (x : A) :
  In x (firstn n l) -> In x l.
Proof.
  intros H. rewrite <- (firstn_skipn n l). apply in_or_app. now left.
Qed.

End JoinSplit.

Section Entities.
Context {U : Unicode}.

Lemma isalpha_no_comma (word : pystr) :
  isalpha word = true ->
  forallb (fun c => negb (N.eqb comma c)) word = true.
Proof.
  unfold isalpha. intros H. apply andb_true_iff in H as [_ H].
  rewrite forallb_forall in *. intros c Hc. specialize (H c Hc).
  destruct (N.eqb_spec comma c) as [<-|]; [|reflexivity].
  vm_compute in H. discriminate.
Qed.

Lemma is_entity_spec (word : pystr) :
  is_entity word = true ->
  (exists c rest, word = c :: rest /\ isupper_char c = true)
  /\ (2 < len word)%Z /\ isalpha word = true.
Proof.
  unfold is_entity. destruct word as [|c rest]; [discriminate|].
  intros H. apply andb_true_iff in H as [H H3]. apply andb_true_iff in H as [H1 H2].
  split; [now exists c, rest|]. split; [|assumption].
  apply Z.gtb_lt in H2. lia.
Qed.

Lemma entities_round_trip (content : pystr) :
  let entities := firstn 10 (filter is_entity (split content)) in
  (potential_entities_of content = [] <-> entities = [])
  /\ (entities <> [] ->
      split_on comma (potential_entities_of content) = entities).
Proof.
  cbv zeta. unfold potential_entities_of.
  set (entities := firstn 10 (filter is_entity (split content))).
  assert (H : Forall (fun e => is_entity e = true) entities).
  { apply Forall_forall. intros e He. unfold entities in He.
    apply firstn_In in He. apply filter_In in He. tauto. }
  split.
  - apply join_nil_iff. eapply Forall_impl; [|exact H].
    intros e He ->. discriminate.
  - intros Hne. change (lit ",") with [comma]. apply split_join; [assumption|].
    eapply Forall_impl; [|exact H].
    intros e He. apply isalpha_no_comma. now apply is_entity_spec in He.
Qed.

End Entities.

(** X5: [potential_entities] is empty exactly when no word of the chunk is
    capitalised, alphabetic and longer than two characters; otherwise
    splitting it at the commas gives back the first ten such words, in
    the order of the text. *)
Theorem potential_entities_split_back :
  forall (U : Unicode) load split_text uuid4 (Store : Type)
         (w : World Store) (path : pystr),
    Forall
      (fun c =>
         let m := metadata c in
         let words := split (page_content (document c)) in
         let entities := split_on comma (potential_entities m) in
         (potential_entities m = []
          <-> forall word, In word words -> is_entity word = false)
         /\ (potential_entities m <> [] ->
             entities = firstn 10 (filter is_entity words)
             /\ (List.length entities <= 10)%nat
             /\ Forall
                  (fun e =>
                     In e words /\ isalpha e = true /\ (2 < len e)%Z
                     /\ exists c rest, e = c :: rest /\ isupper_char c = true)
                  entities))
      (fst (chunk_markdown_file load split_text uuid4 w path)).
Proof.
  intros. apply chunk_markdown_file_Forall; [|intros c id H; exact H].
  intros p n i chunk id prev. cbv zeta.
  cbn [enrich_with document metadata potential_entities].
  destruct (entities_round_trip (page_content chunk)) as [Hnil Hsplit].
  split.
  - rewrite Hnil. split.
    + intros E word Hw. destruct (is_entity word) eqn:Ew; [|reflexivity].
      assert (Hin : In word (filter is_entity (split (page_content chunk))))
        by (apply filter_In; auto).
      destruct (filter is_entity (split (page_content chunk))); [contradiction|].
      discriminate E.
    + intros H.
      destruct (filter is_entity (split (page_content chunk))) as [|e l] eqn:F;
        [reflexivity|].
      assert (He : In e (filter is_entity (split (page_content chunk))))
        by (rewrite F; now left).
      apply filter_In in He as [He1 He2]. rewrite (H e He1) in He2. discriminate.
  - intros Hne.
    assert (Hne' : firstn 10 (filter is_entity (split (page_content chunk))) <> [])
      by (intros E; apply Hne; now apply Hnil).
    rewrite (Hsplit Hne'). split; [reflexivity|]. split.
    + apply firstn_le_length.
    + apply Forall_forall. intros e He. apply firstn_In in He.
      apply filter_In in He as [He1 He2].
      apply is_entity_spec in He2 as (Hc & Hl & Ha). auto.
Qed.


Section HeaderFacts.

Lemma dict_set_In (d : list (nat * pystr)) (k : nat) (v : pystr) (kv : nat * pystr) :
  In kv (dict_set d k v) -> kv = (k, v) \/ In kv d.
Proof.
  induction d as [|[k' v'] d IH]; cbn [dict_set].
  - intros [<-|[]]. now left.
  - destruct (k' =? k)%nat.
    + intros [<-|H]; [now left | right; now right].
    + intros [<-|H]; [right; now left|].
      destruct (IH H) as [E|E]; [now left | right; now right].
Qed.

Lemma dict_set_keys (d : list (nat * pystr)) (k : nat) (v : pystr) (x : nat) :
  In x (map fst (dict_set d k v)) <-> x = k \/ In x (map fst d).
Proof.
  induction d as [|[k' v'] d IH]; cbn [dict_set map fst In].
  - intuition.
  - destruct (Nat.eqb_spec k' k) as [->|N]; cbn [map fst In]; intuition.
Qed.

Lemma dict_set_NoDup (d : list (nat * pystr)) (k : nat) (v : pystr) :
  NoDup (map fst d) -> NoDup (map fst (dict_set d k v)).
Proof.
  induction d as [|[k' v'] d IH]; cbn [dict_set map fst]; intros H.
  - constructor; [intros []|constructor].
  - inversion H as [|? ? Hn Hd]; subst.
    destruct (Nat.eqb_spec k' k) as [->|N]; cbn [map fst].
    + now constructor.
    + constructor; [|now apply IH].
      rewrite dict_set_keys. intros [E|E]; [congruence|contradiction].
Qed.

Lemma dict_get_In (d : list (nat * pystr)) (k : nat) :
  In k (map fst d) -> In (k, dict_get d k) d.
Proof.
  induction d as [|[k' v'] d IH]; cbn [map fst In dict_get]; [intros []|].
  destruct (Nat.eqb_spec k' k) as [->|N].
  - intros _. now left.
  - intros [E|E]; [congruence|]. right. now apply IH.
Qed.

(** The dict built by the loop of lines 133-136, from any dict. *)
Lemma header_fold (hm : list (nat * pystr)) :
  forall acc,
    let d := fold_left (fun d kv => dict_set d (fst kv) (snd kv)) hm acc in
    (forall kv, In kv d -> In kv hm \/ In kv acc)
    /\ (forall k, In k (map fst d) <-> In k (map fst hm) \/ In k (map fst acc))
    /\ (NoDup (map fst acc) -> NoDup (map fst d)).
Proof.
  induction hm as [|[k v] hm IH]; intros acc; cbv zeta; cbn [fold_left fst snd].
  - split; [auto|]. split; [|auto]. cbn [map In]. intuition.
  - destruct (IH (dict_set acc k v)) as (H1 & H2 & H3). cbv zeta in H1, H2, H3.
    split; [|split].
    + intros kv H. destruct (H1 kv H) as [E|E]; [left; now right|].
      apply dict_set_In in E as [->|E]; [left; now left | now right].
    + intros x. rewrite H2, dict_set_keys. cbn [map fst In]. intuition.
    + intros N. apply H3. now apply dict_set_NoDup.
Qed.

Lemma header_levels_spec (chunk : Document) :
  (forall kv, In kv (header_levels chunk) -> In kv (header_metadata chunk))
  /\ (forall k, In k (map fst (header_levels chunk))
                <-> In k (map fst (header_metadata chunk)))
  /\ NoDup (map fst (header_levels chunk)).
Proof.
  unfold header_levels.
  destruct (header_fold (header_metadata chunk) []) as (H1 & H2 & H3).
  cbv zeta in H1, H2, H3. split; [|split].
  - intros kv H. destruct (H1 kv H) as [E|[]]. exact E.
  - intros k. rewrite H2. cbn [map In]. intuition.
  - apply H3. constructor.
Qed.

Lemma fold_max_spec (ks : list nat) :
  forall k,
    In (fold_left Nat.max ks k) (k :: ks)
    /\ forall x, In x (k :: ks) -> (x <= fold_left Nat.max ks k)%nat.
Proof.
  induction ks as [|a ks IH]; intros k; cbn [fold_left].
  - split; [now left|]. intros x [<-|[]]. lia.
  - destruct (IH (Nat.max k a)) as [H1 H2]. split.
    + destruct H1 as [E|E]; [|right; now right].
      rewrite <- E. destruct (Nat.max_spec k a) as [[_ ->]|[_ ->]];
        [right; now left | now left].
    + intros x [<-|[<-|H]].
      * specialize (H2 (Nat.max k a) (or_introl eq_refl)). lia.
      * specialize (H2 (Nat.max k a) (or_introl eq_refl)). lia.
      * apply H2. now right.
Qed.

Lemma fold_min_spec (ks : list nat) :
  forall k,
    In (fold_left Nat.min ks k) (k :: ks)
    /\ forall x, In x (k :: ks) -> (fold_left Nat.min ks k <= x)%nat.
Proof.
  induction ks as [|a ks IH]; intros k; cbn [fold_left].
  - split; [now left|]. intros x [<-|[]]. lia.
  - destruct (IH (Nat.min k a)) as [H1 H2]. split.
    + destruct H1 as [E|E]; [|right; now right].
      rewrite <- E. destruct (Nat.min_spec k a) as [[_ ->]|[_ ->]];
        [now left | right; now left].
    + intros x [<-|[<-|H]].
      * specialize (H2 (Nat.min k a) (or_introl eq_refl)). lia.
      * specialize (H2 (Nat.min k a) (or_introl eq_refl)). lia.
      * apply H2. now right.
Qed.

Lemma insert_sorted_In (k : nat) (l : list nat) (x : nat) :
  In x (insert_sorted k l) <-> x = k \/ In x l.
Proof.
  induction l as [|a l IH]; cbn [insert_sorted In].
  - intuition.
  - destruct (k <=? a)%nat; cbn [In]; intuition.
Qed.

Lemma insert_sorted_length (k : nat) (l : list nat) :
  List.length (insert_sorted k l) = S (List.length l).
Proof.
  induction l as [|a l IH]; [reflexivity|].
  cbn [insert_sorted]. destruct (k <=? a)%nat; cbn [List.length]; [reflexivity|].
  now rewrite IH.
Qed.

Lemma insert_sorted_increasing (k : nat) (l : list nat) :
  ~ In k l -> StronglySorted lt l -> StronglySorted lt (insert_sorted k l).
Proof.
  induction l as [|a l IH]; intros Hk Hs; cbn [insert_sorted].
  - constructor; constructor.
  - inversion Hs as [|? ? Hs' Ha]; subst.
    assert (k <> a) by (intros ->; apply Hk; now left).
    destruct (Nat.leb_spec k a).
    + constructor; [assumption|]. constructor; [lia|].
      eapply Forall_impl; [|exact Ha]. cbv beta. intros; lia.
    + constructor.
      * apply IH; [|assumption]. intros Hin. apply Hk. now right.
      * apply Forall_forall. intros x Hx. apply insert_sorted_In in Hx as [->|Hx];
          [lia|]. rewrite Forall_forall in Ha. now apply Ha.
Qed.

Lemma sorted_In (l : list nat) (x : nat) : In x (sorted l) <-> In x l.
Proof.
  induction l as [|a l IH]; cbn [sorted fold_right In]; [tauto|].
  fold (sorted l). rewrite insert_sorted_In, IH. intuition.
Qed.

Lemma sorted_length (l : list nat) : List.length (sorted l) = List.length l.
Proof.
  induction l as [|a l IH]; [reflexivity|].
  cbn [sorted fold_right]. fold (sorted l).
  rewrite insert_sorted_length, IH. reflexivity.
Qed.

Lemma sorted_increasing (l : list nat) :
  NoDup l -> StronglySorted lt (sorted l).
Proof.
  induction l as [|a l IH]; intros H; cbn [sorted fold_right]; [constructor|].
  fold (sorted l). inversion H as [|? ? Ha Hl]; subst.
  apply insert_sorted_increasing; [|now apply IH].
  now rewrite sorted_In.
Qed.

Lemma NoDup_same_length (l l' : list nat) :
  NoDup l -> NoDup l' -> (forall x, In x l <-> In x l') ->
  List.length l = List.length l'.
Proof.
  intros N N' H. apply Nat.le_antisymm.
  - apply NoDup_incl_length; [assumption|]. intros x. apply H.
  - apply NoDup_incl_length; [assumption|]. intros x. apply H.
Qed.

Lemma header_depth_distinct (chunk : Document) :
  len (header_path_of chunk)
  = len (nodup Nat.eq_dec (map fst (header_metadata chunk))).
Proof.
  unfold header_path_of, len. rewrite length_map, sorted_length. f_equal.
  destruct (header_levels_spec chunk) as (_ & H2 & H3).
  apply NoDup_same_length; [assumption|apply NoDup_nodup|].
  intros x. rewrite H2, nodup_In. tauto.
Qed.

End HeaderFacts.

(** X6: Without headers the header fields are 0, 0, 0 and the empty path;
    with headers, [min_header_level] and [max_header_level] are the
    least and the greatest level present, and [header_depth] is the
    number of distinct levels. *)
Theorem header_levels_extremes :
  forall (U : Unicode) load split_text uuid4 (Store : Type)
         (w : World Store) (path : pystr),
    Forall
      (fun c =>
         let m := metadata c in
         let headers := header_metadata (document c) in
         (headers = [] ->
          max_header_level m = 0 /\ min_header_level m = 0
          /\ header_depth m = 0 /\ header_path m = [])%Z
         /\ (forall k title, In (k, title) headers ->
               (min_header_level m <= Z.of_nat k <= max_header_level m)%Z)
         /\ (headers <> [] ->
             exists kmin tmin kmax tmax,
               In (kmin, tmin) headers /\ In (kmax, tmax) headers
               /\ min_header_level m = Z.of_nat kmin
               /\ max_header_level m = Z.of_nat kmax)
         /\ header_depth m = len (nodup Nat.eq_dec (map fst headers)))
      (fst (chunk_markdown_file load split_text uuid4 w path)).
Proof.
  intros. apply chunk_markdown_file_Forall; [|intros c id H; exact H].
  intros p n i chunk id prev. cbv zeta.
  cbn [enrich_with document metadata max_header_level min_header_level
       header_depth header_path].
  destruct (header_levels_spec chunk) as (H1 & H2 & H3).
  split; [|split; [|split]].
  - intros E. unfold max_header_level_of, min_header_level_of, header_path_of,
      header_levels. rewrite E. cbn. auto.
  - intros k title Hin.
    assert (Hk : In k (map fst (header_levels chunk))).
    { apply H2. apply in_map_iff. now exists (k, title). }
    unfold max_header_level_of, min_header_level_of.
    destruct (map fst (header_levels chunk)) as [|a ks]; [contradiction|].
    destruct (fold_max_spec ks a) as [_ Hmax].
    destruct (fold_min_spec ks a) as [_ Hmin].
    specialize (Hmax k Hk). specialize (Hmin k Hk). lia.
  - intros Hne.
    unfold max_header_level_of, min_header_level_of.
    destruct (map fst (header_levels chunk)) as [|a ks] eqn:E.
    + exfalso. destruct (header_metadata chunk) as [|[k t] hm]; [congruence|].
      exact (proj2 (H2 k) (or_introl eq_refl)).
    + destruct (fold_max_spec ks a) as [Hmax _].
      destruct (fold_min_spec ks a) as [Hmin _].
      rewrite <- E in Hmax, Hmin.
      apply dict_get_In in Hmax, Hmin. apply H1 in Hmax, Hmin.
      eexists _, _, _, _. split; [exact Hmin|]. split; [exact Hmax|].
      split; reflexivity.
  - apply header_depth_distinct.
Qed.

(** X7: [header_path] joins one title for each distinct header level of the
    chunk, in increasing order of the levels. *)
Theorem header_path_in_level_order :
  forall (U : Unicode) load split_text uuid4 (Store : Type)
         (w : World Store) (path : pystr),
    Forall
      (fun c =>
         let m := metadata c in
         let headers := header_metadata (document c) in
         exists levels titles,
           header_path m = PyStr.join (lit " > ") titles
           /\ Forall2 (fun k title => In (k, title) headers) levels titles
           /\ StronglySorted lt levels
           /\ (forall k title, In (k, title) headers -> In k levels)
           /\ header_depth m = len levels)
      (fst (chunk_markdown_file load split_text uuid4 w path)).
Proof.
  intros. apply chunk_markdown_file_Forall; [|intros c id H; exact H].
  intros p n i chunk id prev. cbv zeta.
  cbn [enrich_with document metadata header_depth header_path].
  destruct (header_levels_spec chunk) as (H1 & H2 & H3).
  exists (sorted (map fst (header_levels chunk))),
         (header_path_of chunk).
  split; [reflexivity|]. split; [|split; [|split]].
  - unfold header_path_of.
    assert (Hall : forall k, In k (sorted (map fst (header_levels chunk))) ->
                     In (k, dict_get (header_levels chunk) k) (header_metadata chunk)).
    { intros k Hk. apply H1, dict_get_In. now apply sorted_In. }
    induction (sorted (map fst (header_levels chunk))) as [|k ks IH];
      cbn [map]; constructor.
    + apply Hall. now left.
    + apply IH. intros x Hx. apply Hall. now right.
  - now apply sorted_increasing.
  - intros k title Hin. apply sorted_In, H2, in_map_iff. now exists (k, title).
  - unfold header_path_of, len. now rewrite length_map.
Qed.


Section RatioFacts.
Local Open Scope Z_scope.

Lemma div_core_nonneg (m1 e1 m2 e2 : Z) :
  0 <= m1 -> 0 < m2 ->
  0 <= fst (fst (SFdiv_core_binary prec emax m1 e1 m2 e2)).
Proof.
  intros H1 H2. unfold SFdiv_core_binary.
  set (s := e1 - e2 - _).
  set (m' := match s with Z0 => m1 | Zpos _ => Z.shiftl m1 s | Zneg _ => 0 end).
  assert (Hm : 0 <= m').
  { subst m'. destruct s; [assumption| |lia]. apply Z.shiftl_nonneg. assumption. }
  pose proof (Z.div_pos m' m2 Hm H2) as Hq. unfold Z.div in Hq.
  destruct (Z.div_eucl m' m2) as [q r]. exact Hq.
Qed.

Lemma round2_nonneg (x : float) : nonneg x -> nonneg (round2 x).
Proof.
  destruct x as [s|s| |s m e]; cbn [nonneg round2]; intros H; try exact H.
  destruct e as [|e|k]; try exact H. destruct H as [-> H].
  destruct (round_half_even (100 * Zpos m) (2 ^ Zpos k)) as [|p|p];
    try reflexivity.
  unfold fdiv. cbn [SFdiv xorb].
  pose proof (div_core_nonneg (Zpos p) 0 100 0 ltac:(lia) ltac:(lia)) as Hq.
  destruct (SFdiv_core_binary prec emax (Zpos p) 0 100 0) as [[mz ez] lz].
  cbn [fst] in Hq.
  exact (binary_round_aux_shape prec emax prec_positive false mz ez lz Hq).
Qed.

Lemma nonneg_fle (x : float) : nonneg x -> fle fzero x = true.
Proof.
  destruct x as [s|s| |s m e]; cbn [nonneg]; intros H.
  - reflexivity.
  - subst s. reflexivity.
  - contradiction.
  - destruct H as [-> _]. reflexivity.
Qed.

(** [round(a / b, 2)] for [a >= 0] and [b >= 1]. *)
Lemma ratio_nonneg (a b : Z) :
  0 <= a -> 1 <= b ->
  nonneg (round2 (int_true_div a b))
  /\ (a = 0 -> round2 (int_true_div a b) = fzero).
Proof.
  intros Ha Hb. destruct b as [|q|q]; try lia. split.
  - apply round2_nonneg. unfold int_true_div.
    destruct a as [|p|p]; [reflexivity| |lia].
    unfold fdiv. cbn [exact_int SFdiv xorb].
    pose proof (div_core_nonneg (Zpos p) 0 (Zpos q) 0 ltac:(lia) ltac:(lia)) as H.
    destruct (SFdiv_core_binary prec emax (Zpos p) 0 (Zpos q) 0) as [[mz ez] lz].
    cbn [fst] in H.
    exact (binary_round_aux_shape prec emax prec_positive false mz ez lz H).
  - intros ->. reflexivity.
Qed.

End RatioFacts.

(** X8: [content_density] and [avg_words_per_sentence] are never NaN and
    never negative: the test [0.0 <= x] holds for them, the divisor being
    at least 1; and both are 0.0 for a chunk without words. *)
Theorem ratios_not_negative :
  forall (U : Unicode) load split_text uuid4 (Store : Type)
         (w : World Store) (path : pystr),
    Forall
      (fun c =>
         let m := metadata c in
         fle fzero (content_density m) = true
         /\ fle fzero (avg_words_per_sentence m) = true
         /\ content_density m <> S754_nan
         /\ avg_words_per_sentence m <> S754_nan
         /\ (word_count m = 0%Z ->
             content_density m = fzero /\ avg_words_per_sentence m = fzero))
      (fst (chunk_markdown_file load split_text uuid4 w path)).
Proof.
  intros. apply chunk_markdown_file_Forall; [|intros c id H; exact H].
  intros p n i chunk id prev. cbv zeta.
  cbn [enrich_with document metadata content_density avg_words_per_sentence
       word_count].
  destruct (ratio_nonneg (len (split (page_content chunk)))
              (Z.max (len (lines (page_content chunk))) 1)
              (len_nonneg _) ltac:(lia)) as [D1 D2].
  destruct (ratio_nonneg (len (split (page_content chunk)))
              (Z.max (sentences (page_content chunk)) 1)
              (len_nonneg _) ltac:(lia)) as [A1 A2].
  split; [now apply nonneg_fle|]. split; [now apply nonneg_fle|].
  split; [intros E; rewrite E in D1; exact D1|].
  split; [intros E; rewrite E in A1; exact A1|].
  intros E. split; [now apply D2 | now apply A2].
Qed.


Section ChunkOutcomes.
Context {U : Unicode}.
Variable load : pystr -> option pystr.
Variable split_text : pystr -> list Document.
Variable uuid4 : pystr -> nat -> pystr.
Variable Store : Type.
(** The loop and the second pass raise nothing: when the file exists and
    loads, the chunks are returned and the handler of line 224 is not
    entered. *)
Lemma chunk_markdown_file_loaded (w : World Store) (path text : pystr) :
  path_exists (fs w) path = true -> load path = Some text ->
  exists chunks,
    build_chunks path (uuid4 path) (split_text text) = Some chunks
    /\ chunk_markdown_file load split_text uuid4 w path
       = (chunks, print w (MsgStartChunk path)).
Proof.
  intros He Hl.
  destruct (build_chunks_spec path (uuid4 path) (split_text text))
    as (out & Hb & _ & _).
  exists out. split; [exact Hb|].
  unfold chunk_markdown_file. rewrite He, Hl, Hb. reflexivity.
Qed.

Lemma build_chunks_ids (path : pystr) (ids : nat -> pystr)
    (splits : list Document) (out : list Chunk) :
  build_chunks path ids splits = Some out ->
  map (fun c => chunk_id (metadata c)) out = map ids (seq 0 (List.length splits)).
Proof.
  intros Hb. apply build_chunks_navigation in Hb as [Hlen Hnav].
  apply nth_error_ext. intros k. rewrite !nth_error_map.
  destruct (nth_error out k) as [c|] eqn:Ec.
  - destruct (Hnav k c Ec) as (Hid & _). cbn [option_map]. rewrite Hid.
    assert (Hk : (k < List.length splits)%nat)
      by (rewrite <- Hlen; apply nth_error_Some; congruence).
    rewrite nth_error_seq.
    destruct (Nat.ltb_spec k (List.length splits)); [reflexivity|lia].
  - apply nth_error_None in Ec. rewrite nth_error_seq.
    destruct (Nat.ltb_spec k (List.length splits)); [lia|reflexivity].
Qed.

Lemma chunk_markdown_file_prints (w : World Store) (path : pystr) (m : Msg) :
  fst (chunk_markdown_file load split_text uuid4 (print w m) path)
  = fst (chunk_markdown_file load split_text uuid4 w path)
  /\ vector_store (snd (chunk_markdown_file load split_text uuid4 w path))
     = vector_store w.
Proof.
  unfold chunk_markdown_file. cbn [print fs].
  destruct (negb (path_exists (fs w) path)); [split; reflexivity|].
  destruct (load path); [|split; reflexivity].
  destruct (build_chunks _ _ _); split; reflexivity.
Qed.

End ChunkOutcomes.

(** X9: [chunk_markdown_file] returns no chunk exactly when the file is
    missing, the loader raises, or the splitter returns no document.  For
    a file that exists and loads it returns one chunk per document of the
    splitter, in order, each with the path and the base name of the file,
    and prints only the start message: the handler of line 224 is entered
    for a loader failure alone.  It never touches the tree or the store. *)
Theorem chunk_markdown_file_outcomes :
  forall (U : Unicode) load split_text uuid4 (Store : Type)
         (w : World Store) (path : pystr),
    let r := chunk_markdown_file load split_text uuid4 w path in
    fs (snd r) = fs w /\ vector_store (snd r) = vector_store w
    /\ (path_exists (fs w) path = false ->
        r = ([], print w (MsgFileNotFound path)))
    /\ (path_exists (fs w) path = true -> load path = None ->
        r = ([], print (print w (MsgStartChunk path)) (MsgErrorProcessing path)))
    /\ (forall text,
          path_exists (fs w) path = true -> load path = Some text ->
          map document (fst r) = split_text text
          /\ map (fun c => chunk_id (metadata c)) (fst r)
             = map (uuid4 path) (seq 0 (List.length (split_text text)))
          /\ Forall (fun c => file_path (metadata c) = path
                              /\ source_file (metadata c) = basename path) (fst r)
          /\ snd r = print w (MsgStartChunk path))
    /\ (fst r = []
        <-> path_exists (fs w) path = false \/ load path = None
            \/ exists text, load path = Some text /\ split_text text = []).
Proof.
  intros U load split_text uuid4 Store w path r.
  split; [apply chunk_markdown_file_fs|].
  split; [apply (chunk_markdown_file_prints load split_text uuid4 Store w path
                   MsgScanning)|].
  assert (Hfields : Forall (fun c => file_path (metadata c) = path
                              /\ source_file (metadata c) = basename path) (fst r)).
  { destruct (chunk_markdown_file_cases load split_text uuid4 Store w path)
      as [E | (text & _ & _ & Hb)]; [subst r; rewrite E; constructor|].
    eapply build_chunks_Forall; [| |exact Hb].
    - intros n i chunk id prev. split; reflexivity.
    - intros c id H. exact H. }
  split; [|split; [|split]].
  - intros E. subst r. unfold chunk_markdown_file. rewrite E. reflexivity.
  - intros E L. subst r. unfold chunk_markdown_file. rewrite E, L. reflexivity.
  - intros text E L.
    destruct (chunk_markdown_file_loaded load split_text uuid4 Store w path text E L)
      as (chunks & Hb & Hr).
    fold r in Hr. rewrite Hr in *. cbn [fst snd] in *.
    split; [exact (build_chunks_documents _ _ _ _ Hb)|].
    split; [exact (build_chunks_ids _ _ _ _ Hb)|].
    split; [exact Hfields | reflexivity].
  - destruct (path_exists (fs w) path) eqn:E.
    + destruct (load path) as [text|] eqn:L.
      * destruct (chunk_markdown_file_loaded load split_text uuid4 Store w path text
                    E L) as (chunks & Hb & Hr).
        fold r in Hr. rewrite Hr. cbn [fst].
        pose proof (build_chunks_documents _ _ _ _ Hb) as Hd.
        split.
        -- intros ->. right. right. exists text. split; [reflexivity|].
           now rewrite <- Hd.
        -- intros [H|[H|(text' & H1 & H2)]]; try discriminate.
           injection H1 as <-. rewrite H2 in Hd.
           destruct chunks; [reflexivity|discriminate].
      * split; [auto|]. intros _. subst r. unfold chunk_markdown_file.
        rewrite E, L. reflexivity.
    + split; [auto|]. intros _. subst r. unfold chunk_markdown_file.
      rewrite E. reflexivity.
Qed.

(** X10: [ingest_markdown_file] leaves the tree alone.  With no chunk (file
    missing, loader failure, no document) it leaves the store alone and
    says so.  Otherwise the store is asked once, with all the chunks and
    their identifiers in order; when it raises the store is unchanged and
    the error is printed, and the function returns normally. *)
Theorem ingest_markdown_file_store :
  forall (U : Unicode) load split_text uuid4 (Store : Type) add_documents
         (w : World Store) (path : pystr),
    let chunks := fst (chunk_markdown_file load split_text uuid4 w path) in
    let w' := ingest_markdown_file load split_text uuid4 add_documents w path in
    fs w' = fs w
    /\ (chunks = [] ->
        vector_store w' = vector_store w
        /\ exists earlier, stdout w' = earlier ++ [MsgNoChunks path])
    /\ (chunks <> [] ->
        match add_documents (vector_store w) chunks
                (map (fun c => chunk_id (metadata c)) chunks) with
        | Some store' =>
            vector_store w' = store'
            /\ exists earlier,
                 stdout w' = earlier ++ [MsgIngested path (len chunks)]
        | None =>
            vector_store w' = vector_store w
            /\ exists earlier, stdout w' = earlier ++ [MsgErrorAdding]
        end).
Proof.
  intros U load split_text uuid4 Store add_documents w path chunks w'.
  split; [apply ingest_markdown_file_fs|].
  subst w'. unfold ingest_markdown_file.
  destruct (chunk_markdown_file_prints load split_text uuid4 Store w path
              (MsgStartIngest path)) as [Hfst _].
  destruct (chunk_markdown_file_prints load split_text uuid4 Store
              (print w (MsgStartIngest path)) path MsgScanning) as [_ Hstore].
  fold chunks in Hfst.
  destruct (chunk_markdown_file load split_text uuid4
              (print w (MsgStartIngest path)) path) as [cs w1].
  cbn [fst snd] in Hfst, Hstore. cbn [print vector_store] in Hstore. subst cs.
  split.
  - intros ->. cbn [print vector_store stdout]. split; [exact Hstore|].
    eexists. reflexivity.
  - intros Hne. destruct chunks as [|c cs] eqn:Ec; [congruence|].
    cbn [print vector_store stdout]. rewrite Hstore.
    destruct (add_documents (vector_store w) (c :: cs)
                (map (fun chunk => chunk_id (metadata chunk)) (c :: cs)));
      cbn [print vector_store stdout]; (split; [auto | eexists; reflexivity]).
Qed.




Section DirnameFacts.

Lemma split_last_slash_app (a x : pystr) :
  ~ In slash x -> (a = [] \/ exists a', a = a' ++ [slash]) ->
  split_last_slash (a ++ x) = (a, x).
Proof.
  intros Hx Ha. unfold split_last_slash. rewrite rev_app_distr.
  rewrite break_at_slash_app.
  - now rewrite !rev_involutive.
  - intros H. apply Hx. now apply in_rev.
  - destruct Ha as [-> | (a' & ->)]; [now left|].
    right. exists (rev a'). rewrite rev_app_distr. reflexivity.
Qed.

Lemma lstrip_when_shape (p : char -> bool) (s : pystr) :
  (lstrip_when p s = [] /\ forallb p s = true)
  \/ exists c r, lstrip_when p s = c :: r /\ p c = false.
Proof.
  induction s as [|c s IH]; [now left|].
  cbn [lstrip_when forallb]. destruct (p c) eqn:E.
  - exact IH.
  - right. now exists c, s.
Qed.

Lemma forallb_rev (p : char -> bool) (s : pystr) :
  forallb p (rev s) = forallb p s.
Proof.
  destruct (forallb p s) eqn:E.
  - rewrite forallb_forall in *. intros c Hc. apply E. now apply in_rev.
  - destruct (forallb p (rev s)) eqn:E'; [|reflexivity].
    rewrite <- E. symmetry. rewrite forallb_forall in *.
    intros c Hc. apply E'. now apply in_rev in Hc.
Qed.

(** What [os.path.dirname] returns: the empty string, a run of slashes, or
    a path that does not end in a slash. *)
Lemma dirname_shape (p : pystr) :
  dirname p = []
  \/ (dirname p <> [] /\ forallb (N.eqb slash) (dirname p) = true)
  \/ exists c r, rev (dirname p) = c :: r /\ N.eqb slash c = false.
Proof.
  unfold dirname. set (head := fst (split_last_slash p)).
  destruct (nonempty head && negb (forallb (N.eqb slash) head)) eqn:C.
  - apply andb_true_iff in C as [_ C]. apply negb_true_iff in C.
    right. right. rewrite rev_involutive.
    destruct (lstrip_when_shape (N.eqb slash) (rev head)) as [[_ H]|H];
      [|exact H].
    rewrite forallb_rev in H. exfalso. exact (eq_true_false_abs _ H C).
  - apply andb_false_iff in C as [C|C].
    + left. destruct head; [reflexivity|discriminate].
    + apply negb_false_iff in C. destruct head; [now left|].
      right. left. split; [discriminate|assumption].
Qed.

Lemma dirname_app (a x : pystr) :
  ~ In slash x -> (a = [] \/ exists a', a = a' ++ [slash]) ->
  dirname (a ++ x)
  = if nonempty a && negb (forallb (N.eqb slash) a)
    then rev (lstrip_when (N.eqb slash) (rev a)) else a.
Proof.
  intros Hx Ha. unfold dirname. now rewrite split_last_slash_app.
Qed.

Lemma dirname_join (d x : pystr) :
  ~ In slash x ->
  d = [] \/ (d <> [] /\ forallb (N.eqb slash) d = true)
  \/ (exists c r, rev d = c :: r /\ N.eqb slash c = false) ->
  dirname (join d x) = d.
Proof.
  intros Hx Hd. unfold join.
  assert (Sx : startswith x [slash] = false).
  { destruct x as [|c x]; [reflexivity|]. cbn [startswith].
    destruct (N.eqb_spec c slash) as [->|]; [|reflexivity].
    exfalso. apply Hx. now left. }
  rewrite Sx. destruct Hd as [->|[[Hne Hall]|(c & r & Hrev & Hc)]].
  - cbn [nonempty negb orb app]. exact (dirname_app [] x Hx (or_introl eq_refl)).
  - assert (E : endswith d [slash] = true).
    { unfold endswith. cbn [rev app].
      destruct (rev d) as [|c r] eqn:R.
      - exfalso. apply Hne. rewrite <- (rev_involutive d), R. reflexivity.
      - cbn [startswith]. rewrite <- forallb_rev, R in Hall. cbn [forallb] in Hall.
        apply andb_true_iff in Hall as [Hc _]. rewrite N.eqb_sym, Hc.
        destruct r; reflexivity. }
    rewrite E, orb_true_r.
    rewrite (dirname_app d x Hx); [|right; now apply endswith_slash].
    rewrite Hall. cbn [negb]. now rewrite andb_false_r.
  - assert (Hne : nonempty d = true).
    { destruct d; [discriminate|reflexivity]. }
    assert (E : endswith d [slash] = false).
    { unfold endswith. cbn [rev app]. rewrite Hrev. cbn [startswith].
      rewrite N.eqb_sym, Hc. reflexivity. }
    rewrite Hne, E. cbn [negb orb]. rewrite app_assoc.
    rewrite (dirname_app (d ++ [slash]) x Hx); [|right; now exists d].
    assert (Hall : forallb (N.eqb slash) (d ++ [slash]) = false).
    { rewrite <- forallb_rev, rev_app_distr, Hrev. cbn [rev app forallb].
      rewrite N.eqb_refl, Hc. reflexivity. }
    rewrite Hall. destruct d as [|a d']; [discriminate|].
    cbn [app nonempty negb andb].
    change (a :: d' ++ [slash]) with ((a :: d') ++ [slash]).
    rewrite rev_app_distr, Hrev. cbn [rev app lstrip_when].
    rewrite N.eqb_refl, Hc. rewrite <- Hrev. apply rev_involutive.
Qed.

End DirnameFacts.

(** X12: The rename of lines 281-285 keeps the file in its directory: the new
    path has the directory of the old one, and its base name is the old
    base name with "_" put in front. *)
Theorem processed_path_stays_in_directory :
  forall p : pystr,
    dirname (processed_path p) = dirname p
    /\ basename (processed_path p) = lit "_" ++ basename p
    /\ processed_path p <> p.
Proof.
  intros p.
  assert (Hb : basename (processed_path p) = lit "_" ++ basename p)
    by apply processed_name.
  split; [|split; [exact Hb|]].
  - unfold processed_path. apply dirname_join; [|apply dirname_shape].
    intros [H|H]; [discriminate|]. now apply (basename_no_slash p).
  - intros E. rewrite E in Hb.
    assert (L : List.length (basename p) = List.length (lit "_" ++ basename p))
      by now rewrite <- Hb.
    rewrite length_app in L. cbn in L. lia.
Qed.


Section BatchFacts.
Context {U : Unicode}.
Variable load : pystr -> option pystr.
Variable split_text : pystr -> list Document.
Variable uuid4 : pystr -> nat -> pystr.
Variable Store : Type.
Variable add_documents : Store -> list Chunk -> list pystr -> option Store.












Lemma is_file_exists (t : tree) (p : pystr) :
  is_file t p = true -> path_exists t p = true.
Proof.
  unfold is_file, path_exists. rewrite !existsb_exists.
  intros ([[root dirs] files] & Hin & H). exists (root, dirs, files).
  split; [assumption|]. rewrite H. apply orb_true_r.
Qed.

End BatchFacts.

Section SecondRun.
Context {U : Unicode}.
Variable load : pystr -> option pystr.
Variable split_text : pystr -> list Document.
Variable uuid4 : pystr -> nat -> pystr.
Variable Store : Type.
Variable add_documents : Store -> list Chunk -> list pystr -> option Store.



End SecondRun.




Section SplitFacts.
Variable sep : pystr.
Hypothesis sep_nonempty : sep <> [].


Lemma startswith_app_long (a b sub : pystr) :
  (List.length sub <= List.length a)%nat ->
  startswith (a ++ b) sub = startswith a sub.
Proof.
  revert a. induction sub as [|p sub IH]; intros a H.
  - destruct a; destruct b; reflexivity.
  - destruct a as [|c a]; [cbn in H; lia|]. cbn [app startswith].
    rewrite IH; [reflexivity|]. cbn in H. lia.
Qed.

Lemma startswith_self (b sub : pystr) : startswith (sub ++ b) sub = true.
Proof.
  induction sub as [|p sub IH]; [destruct b; reflexivity|].
  cbn [app startswith]. now rewrite N.eqb_refl.
Qed.


Lemma contains_app_r (a b sub : pystr) :
  contains b sub = true -> contains (a ++ b) sub = true.
Proof.
  intros H. induction a as [|c a IH]; [exact H|].
  cbn [app contains]. rewrite IH. apply orb_true_r.
Qed.

Lemma contains_self (a b sub : pystr) : contains (a ++ sub ++ b) sub = true.
Proof.
  apply contains_app_r. destruct (sub ++ b) eqn:E.
  - cbn [contains]. rewrite <- E, startswith_self. reflexivity.
  - cbn [contains]. rewrite <- E, startswith_self. reflexivity.
Qed.



(** Without an occurrence of the separator there is one field. *)
Lemma split_from_absent (s : pystr) :
  contains s sep = false -> split_from sep s 0 = [s].
Proof.
  induction s as [|c s IH]; intros H; [reflexivity|].
  cbn [contains] in H. apply orb_false_iff in H as [H1 H2].
  cbn [split_from]. rewrite H1, (IH H2). reflexivity.
Qed.

Lemma split_from_skip (sub w v : pystr) :
  split_from sub (w ++ v) (List.length w) = split_from sub v 0.
Proof.
  induction w as [|c w IH]; [destruct v; reflexivity|].
  cbn [app List.length split_from]. exact IH.
Qed.

(** The first field is what precedes the first occurrence. *)
Lemma split_from_first (u v : pystr) :
  contains (u ++ removelast sep) sep = false ->
  split_from sep (u ++ sep ++ v) 0 = u :: split_from sep v 0.
Proof.
  induction u as [|c u IH]; intros H.
  - cbn [app]. destruct sep as [|p sep'] eqn:E; [congruence|].
    cbn [app split_from]. change (p :: sep' ++ v) with ((p :: sep') ++ v).
    rewrite startswith_self.
    replace (List.length (p :: sep') - 1)%nat with (List.length sep')
      by (cbn [List.length]; lia).
    now rewrite split_from_skip.
  - cbn [app contains] in H. apply orb_false_iff in H as [H1 H2].
    cbn [app split_from].
    assert (S : startswith (c :: u ++ sep ++ v) sep = false).
    { rewrite (app_removelast_last 0%N sep_nonempty) at 1.
      rewrite <- app_assoc, app_assoc.
      change (c :: (u ++ removelast sep) ++ [last sep 0%N] ++ v)
        with ((c :: u ++ removelast sep) ++ [last sep 0%N] ++ v).
      rewrite startswith_app_long; [exact H1|].
      assert (L : List.length sep = S (List.length (removelast sep))).
      { rewrite (app_removelast_last 0%N sep_nonempty) at 1.
        rewrite length_app. cbn [List.length]. apply Nat.add_1_r. }
      cbn [List.length]. rewrite length_app, L.
      apply le_n_S, Nat.le_add_l. }
    rewrite S, (IH H2). reflexivity.
Qed.




End SplitFacts.

Section StripFacts.




End StripFacts.

Section AnswerFacts.



End AnswerFacts.


Section FirstOccurrence.

Lemma contains_short (s sub : pystr) :
  (List.length s < List.length sub)%nat -> contains s sub = false.
Proof.
  intros H.
  assert (S : forall a : pystr, (List.length a < List.length sub)%nat ->
                startswith a sub = false).
  { clear. intros a. revert a. induction sub as [|p sub IH]; intros a H.
    - cbn in H. lia.
    - destruct a as [|c a]; [reflexivity|]. cbn [startswith].
      rewrite IH; [apply andb_false_r|]. cbn in H. lia. }
  induction s as [|c s IH]; cbn [contains].
  - rewrite S by assumption. reflexivity.
  - rewrite S by assumption. apply IH. cbn in H. lia.
Qed.

Lemma startswith_app_split (a t sub : pystr) :
  startswith (a ++ t) sub = true ->
  startswith a sub = true
  \/ exists rest, rest <> [] /\ sub = a ++ rest /\ startswith t rest = true.
Proof.
  revert sub. induction a as [|c a IH]; intros sub H.
  - destruct sub as [|q sub]; [now left|].
    right. exists (q :: sub). split; [discriminate|]. now split.
  - destruct sub as [|q sub]; [now left|].
    cbn [app startswith] in *. apply andb_true_iff in H as [H1 H2].
    rewrite H1. apply N.eqb_eq in H1. subst q.
    destruct (IH sub H2) as [E|(rest & Hne & -> & Hs)]; [now left|].
    right. now exists rest.
Qed.

(** A separator whose first character does not come back in it cannot
    overlap itself: an occurrence that starts in [u] ends in [u]. *)
Lemma no_straddling (p : char) (tail u : pystr) :
  ~ In p tail ->
  contains u (p :: tail) = false ->
  contains (u ++ removelast (p :: tail)) (p :: tail) = false.
Proof.
  intros Hp. induction u as [|c u IH]; intros H.
  - apply contains_short. cbn [app].
    rewrite (app_removelast_last 0%N (l := p :: tail)) at 2 by discriminate.
    rewrite length_app. cbn [List.length]. lia.
  - cbn [contains] in H. apply orb_false_iff in H as [H1 H2].
    cbn [app contains]. rewrite (IH H2), orb_false_r.
    destruct (startswith (c :: u ++ removelast (p :: tail)) (p :: tail)) eqn:S;
      [|reflexivity].
    change (c :: u ++ removelast (p :: tail))
      with ((c :: u) ++ removelast (p :: tail)) in S.
    apply startswith_app_split in S as [S|(rest & Hne & E & S)]; [congruence|].
    exfalso. cbn [app] in E. injection E as _ E.
    destruct rest as [|x rest]; [congruence|].
    destruct tail as [|y tail']; [destruct u; discriminate|].
    cbn [removelast] in S. cbn [startswith] in S.
    apply andb_true_iff in S as [S _]. apply N.eqb_eq in S. subst x.
    apply Hp. rewrite E. apply in_or_app. right. now left.
Qed.

Lemma think_close_first (u v : pystr) :
  contains u Bot.think_close = false ->
  split_from Bot.think_close (u ++ Bot.think_close ++ v) 0
  = u :: split_from Bot.think_close v 0.
Proof.
  intros H. apply split_from_first; [discriminate|].
  apply (no_straddling 60%N (lit "/think>") u); [|exact H].
  vm_compute. intuition discriminate.
Qed.

Lemma think_open_first (u v : pystr) :
  contains u Bot.think_open = false ->
  split_from Bot.think_open (u ++ Bot.think_open ++ v) 0
  = u :: split_from Bot.think_open v 0.
Proof.
  intros H. apply split_from_first; [discriminate|].
  apply (no_straddling 60%N (lit "think>") u); [|exact H].
  vm_compute. intuition discriminate.
Qed.

End FirstOccurrence.

(** X16: For an answer of the form [before <think> thought </think> reply]
    whose first "</think>" is the one that closes the thought, and whose
    reply holds no "</think>", the cleaned answer is the stripped reply:
    the text before "<think>" is dropped with the thought.  For an answer
    with "<think>" and no "</think>", it is the stripped text before the
    first "<think>". *)
Theorem clean_answer_keeps_the_reply :
  forall before thought reply : pystr,
    (contains (before ++ Bot.think_open ++ thought) Bot.think_close = false ->
     contains reply Bot.think_close = false ->
     Bot.clean_answer (before ++ Bot.think_open ++ thought ++ Bot.think_close ++ reply)
     = Some (strip reply))
    /\ (contains before Bot.think_open = false ->
        contains (before ++ Bot.think_open ++ thought) Bot.think_close = false ->
        Bot.clean_answer (before ++ Bot.think_open ++ thought) = Some (strip before)).
Proof.
  intros before thought reply. split.
  - intros Hu Hr. unfold Bot.clean_answer.
    rewrite (contains_self before (thought ++ Bot.think_close ++ reply) Bot.think_open).
    replace (before ++ Bot.think_open ++ thought ++ Bot.think_close ++ reply)
      with ((before ++ Bot.think_open ++ thought) ++ Bot.think_close ++ reply)
      by (now rewrite <- !app_assoc).
    rewrite (contains_self (before ++ Bot.think_open ++ thought) reply Bot.think_close).
    cbn [andb]. unfold split_str.
    rewrite (think_close_first _ _ Hu).
    rewrite (split_from_absent Bot.think_close reply Hr). reflexivity.
  - intros Hb Hc. unfold Bot.clean_answer.
    rewrite (contains_self before thought Bot.think_open), Hc. cbn [andb].
    unfold split_str. rewrite (think_open_first _ _ Hb). reflexivity.
Qed.

Lemma clean_answer_keeps_the_reply_witness :
  Bot.clean_answer (lit "note <think>hmm</think> Hello ") = Some (lit "Hello")
  /\ Bot.clean_answer (lit " Hi <think>hmm") = Some (lit "Hi").
Proof.
  split.
  - exact (proj1 (clean_answer_keeps_the_reply (lit "note ") (lit "hmm")
                    (lit " Hello ")) eq_refl eq_refl).
  - exact (proj2 (clean_answer_keeps_the_reply (lit " Hi ") (lit "hmm") [])
             eq_refl eq_refl).
Defined.


Section FormatterFacts.
Variable value : Type.
Variable format : value -> pystr.

Lemma format_from_spec (docs : list (Bot.Document value)) :
  forall i acc,
    exists blocks,
      Bot.format_from format i docs acc = acc ++ blocks
      /\ List.length blocks = List.length docs
      /\ forall k doc, nth_error docs k = Some doc ->
           nth_error blocks k = Some (Bot.doc_context format (i + k) doc).
Proof.
  induction docs as [|d docs IH]; intros i acc.
  - exists []. rewrite app_nil_r. split; [reflexivity|]. split; [reflexivity|].
    intros [|k] ? ?; discriminate.
  - cbn [Bot.format_from].
    destruct (IH (S i) (acc ++ [Bot.doc_context format i d]))
      as (blocks & E & L & N).
    exists (Bot.doc_context format i d :: blocks).
    rewrite E, <- app_assoc. split; [reflexivity|]. split; [cbn; lia|].
    intros [|k] doc Hk.
    + cbn in Hk. injection Hk as <-. cbn [nth_error]. now rewrite Nat.add_0_r.
    + cbn in Hk. cbn [nth_error]. rewrite (N k doc Hk). f_equal. f_equal. lia.
Qed.

Lemma join_piece (sep b : pystr) (blocks : list pystr) :
  In b blocks -> exists pre post, PyStr.join sep blocks = pre ++ b ++ post.
Proof.
  induction blocks as [|x blocks IH]; [intros []|].
  intros [->|H].
  - destruct blocks as [|y blocks].
    + exists [], []. cbn [PyStr.join app]. now rewrite app_nil_r.
    + exists [], (sep ++ PyStr.join sep (y :: blocks)). reflexivity.
  - destruct (IH H) as (pre & post & E).
    destruct blocks as [|y blocks]; [contradiction|].
    exists (x ++ sep ++ pre), post.
    change (PyStr.join sep (x :: y :: blocks))
      with (x ++ sep ++ PyStr.join sep (y :: blocks)).
    rewrite E. now rewrite <- !app_assoc.
Qed.

Lemma get_default (metadata : list (pystr * value)) (key default : pystr) :
  ~ In key (map fst metadata) -> Bot.get format metadata key default = default.
Proof.
  induction metadata as [|[k v] md IH]; intros H; [reflexivity|].
  cbn [Bot.get]. destruct (str_eqb k key) eqn:E.
  - apply str_eqb_eq in E. exfalso. apply H. now left.
  - apply IH. intros Hin. apply H. now right.
Qed.

End FormatterFacts.

Section FormatterBlocks.
Variable value : Type.
Variable format : value -> pystr.

Lemma piece_here (x rest : pystr) : exists a b, x ++ rest = a ++ x ++ b.
Proof. now exists [], rest. Qed.

Lemma piece_later (h x rest : pystr) :
  (exists a b, rest = a ++ x ++ b) -> exists a b, h ++ rest = a ++ x ++ b.
Proof. intros (a & b & ->). exists (h ++ a), b. now rewrite <- app_assoc. Qed.

Lemma piece_trans (s mid x : pystr) :
  (exists a b, s = a ++ mid ++ b) -> (exists a b, mid = a ++ x ++ b) ->
  exists a b, s = a ++ x ++ b.
Proof.
  intros (a & b & ->) (a' & b' & ->). exists (a ++ a'), (b' ++ b).
  now rewrite <- !app_assoc.
Qed.

Lemma piece_contains (s x : pystr) :
  (exists a b, s = a ++ x ++ b) -> contains s x = true.
Proof. intros (a & b & ->). apply contains_self. Qed.

Lemma doc_context_nonempty (i : nat) (doc : Bot.Document value) :
  Bot.doc_context format i doc <> [].
Proof. unfold Bot.doc_context. discriminate. Qed.

Lemma doc_context_content (i : nat) (doc : Bot.Document value) :
  exists a b, Bot.doc_context format i doc = a ++ Bot.page_content doc ++ b.
Proof.
  unfold Bot.doc_context. cbv zeta.
  repeat first [ apply piece_here | apply piece_later ].
Qed.

Lemma doc_context_marker (i : nat) (doc : Bot.Document value) :
  exists a b,
    Bot.doc_context format i doc
    = a ++ (lit "===== DOCUMENT " ++ str_of_nat i ++ lit " =====") ++ b.
Proof.
  unfold Bot.doc_context. cbv zeta. apply piece_later.
  rewrite 2!app_assoc. rewrite <- (app_assoc (lit "===== DOCUMENT ")).
  apply piece_here.
Qed.

End FormatterBlocks.

(** X17: The formatter makes one block per document, numbered from 1 in the
    order given, and joins the blocks with a line feed: the result is
    empty only for no document, and it holds the header line and the
    content of every document. *)
Theorem format_context_blocks :
  forall (value : Type) (format : value -> pystr)
         (docs : list (Bot.Document value)),
    let context := Bot.format_context_with_metadata format docs in
    (context = [] <-> docs = [])
    /\ (exists blocks,
          context = PyStr.join Bot.nl blocks
          /\ List.length blocks = List.length docs
          /\ forall k doc, nth_error docs k = Some doc ->
               nth_error blocks k = Some (Bot.doc_context format (S k) doc))
    /\ (forall k doc, nth_error docs k = Some doc ->
          contains context
            (lit "===== DOCUMENT " ++ str_of_nat (S k) ++ lit " =====") = true
          /\ contains context (Bot.page_content doc) = true).
Proof.
  intros value format docs context. subst context.
  unfold Bot.format_context_with_metadata.
  destruct (format_from_spec value format docs 1 []) as (blocks & E & L & N).
  cbn [app] in E. rewrite E. split; [|split].
  - split.
    + intros H. destruct docs as [|d docs]; [reflexivity|]. exfalso.
      destruct blocks as [|b blocks]; [discriminate L|].
      specialize (N 0%nat d eq_refl). cbn [nth_error Nat.add] in N.
      injection N as ->.
      destruct blocks; cbn [PyStr.join] in H.
      * exact (doc_context_nonempty value format 1 d H).
      * apply app_eq_nil in H as [H _].
        exact (doc_context_nonempty value format 1 d H).
    + intros ->. destruct blocks; [reflexivity|discriminate L].
  - exists blocks. split; [reflexivity|]. split; [exact L|]. exact N.
  - intros k doc Hk. specialize (N k doc Hk). cbn [Nat.add] in N.
    assert (P : exists a b, PyStr.join Bot.nl blocks
                            = a ++ Bot.doc_context format (S k) doc ++ b).
    { apply join_piece. eapply nth_error_In. exact N. }
    split; apply piece_contains; (eapply piece_trans; [exact P|]).
    + apply doc_context_marker.
    + apply doc_context_content.
Qed.

(** X18: A document whose metadata holds none of the keys that the formatter
    reads is shown with the defaults: "Unknown" for the file and the
    path, "Root" for the section path, empty headers and "{}" for the
    hierarchy. *)
Theorem format_context_defaults :
  forall (value : Type) (format : value -> pystr) (i : nat)
         (doc : Bot.Document value),
    (forall key,
        In key [lit "Header 1"; lit "Header 2"; lit "Header 3";
                lit "header_path"; lit "source_file"; lit "file_path";
                lit "section_hierarchy"] ->
        ~ In key (map fst (Bot.metadata doc))) ->
    Bot.doc_context format i doc
    = Bot.nl ++ lit "===== DOCUMENT " ++ str_of_nat i ++ lit " =====" ++ Bot.nl
      ++ lit "FILE: Unknown" ++ Bot.nl
      ++ lit "PATH: Unknown" ++ Bot.nl
      ++ lit "SECTION_PATH: Root" ++ Bot.nl
      ++ lit "HEADERS: H1: " ++ Bot.quote ++ Bot.quote
      ++ lit " | H2: " ++ Bot.quote ++ Bot.quote
      ++ lit " | H3: " ++ Bot.quote ++ Bot.quote ++ Bot.nl
      ++ lit "HIERARCHY: {}" ++ Bot.nl
      ++ Bot.nl
      ++ lit "CONTENT:" ++ Bot.nl
      ++ Bot.page_content doc ++ Bot.nl
      ++ lit "===== END DOCUMENT " ++ str_of_nat i ++ lit " =====" ++ Bot.nl.
Proof.
  intros value format i doc H. unfold Bot.doc_context. cbv zeta.
  rewrite !get_default by (apply H; cbn [In]; auto 10).
  reflexivity.
Qed.

Lemma format_context_defaults_witness :
  Bot.format_context_with_metadata (fun v : pystr => v)
    [ {| Bot.page_content := lit "text"; Bot.metadata := [] |} ]
  = Bot.nl ++ lit "===== DOCUMENT 1 =====" ++ Bot.nl
    ++ lit "FILE: Unknown" ++ Bot.nl
    ++ lit "PATH: Unknown" ++ Bot.nl
    ++ lit "SECTION_PATH: Root" ++ Bot.nl
    ++ lit "HEADERS: H1: " ++ Bot.quote ++ Bot.quote
    ++ lit " | H2: " ++ Bot.quote ++ Bot.quote
    ++ lit " | H3: " ++ Bot.quote ++ Bot.quote ++ Bot.nl
    ++ lit "HIERARCHY: {}" ++ Bot.nl
    ++ Bot.nl
    ++ lit "CONTENT:" ++ Bot.nl
    ++ lit "text" ++ Bot.nl
    ++ lit "===== END DOCUMENT 1 =====" ++ Bot.nl.
Proof.
  unfold Bot.format_context_with_metadata. cbn [Bot.format_from app PyStr.join].
  rewrite (format_context_defaults pystr (fun v => v) 1
             {| Bot.page_content := lit "text"; Bot.metadata := [] |});
    [reflexivity|].
  intros key _ [].
Defined.
